(** * Asphalt: resource contexts and component start-up

    A shallow embedding of [asphalt/core/context.py] (the resource
    [Context]) and of [src/asphalt/core/_component.py] (the
    [ComponentContext] and the start pass of the component orchestrator),
    with the properties of the specification proved over it.

    Python objects live in a store and are named by their allocation
    index; methods become state-passing functions in a state and
    exception monad that keeps the store reached when an exception is
    raised. *)

From Stdlib Require Import Ascii String List Bool Arith Lia.
From stdpp Require Import base option gmap strings list fin_maps.

Local Open Scope string_scope.

(** ** Python values and exceptions *)

(** A class object is named by its qualified name. *)
Definition pytype := string.

(** The exceptions the module raises, and those a callback may raise.
    [UserExc cls b] is an exception of a class outside this module;
    [b] tells whether the class derives from [Exception] (it always
    derives from [BaseException]). *)
Inductive exn :=
| ValueError
| TypeError
| RuntimeError
| AttributeError
| AssertionError
| ResourceConflict
| UserExc (cls : string) (derives_Exception : bool).

Definition isinstance_Exception (e : exn) : bool :=
  match e with
  | UserExc _ b => b
  | _ => true
  end.

(** ** The store *)

Definition ctx_id := nat.

(** Python objects as far as the context looks at them: [None], an
    opaque object with its class ([type(value)]) and identity, or a
    callable of one argument, the requesting context (what a resource
    factory is).  [call ctx k] is what the callable returns or raises when
    it is called with [ctx] at the moment [k] of the run, so that it may
    build a new object on every call.  Callables that call back into the
    context they are given are not modelled. *)
#[warnings="-register-all"]
Inductive PyVal :=
| PyNone
| PyObj (cls : pytype) (oid : nat)
| PyCallable (fid : nat) (iscoroutinefunction : bool)
             (call : ctx_id -> nat -> exn + PyVal).

Definition type_of (v : PyVal) : pytype :=
  match v with
  | PyNone => "NoneType"
  | PyObj cls _ => cls
  | PyCallable _ _ _ => "function"
  end.

Definition is_None (v : PyVal) : bool :=
  match v with PyNone => true | _ => false end.

(** [class ResourceContainer] *)
Record ResourceContainer := {
  value_or_factory : PyVal;
  types : list pytype;
  name : string;
  context_attr : option string;
  is_factory : bool
}.

(** What the return value of a teardown callback is: a plain object, or
    an awaitable whose [await] completes or raises. *)
Inductive retval :=
| Plain
| Awaitable (raised : option exn).

(** A teardown callback.  [td_call args] is the outcome of the call with
    the positional arguments [args]: [[]] for [callback()], [[e]] for
    [callback(e)] where [e] is the exception that ended the context or
    [None].  [td_name] is what [callable_name(callback)] returns or
    raises: [callable_name] belongs to [asphalt/core/utils.py], which is
    not among the sources, so its outcome is given with the callback; it
    raises for a callable that has no qualified name, such as a
    [functools.partial]. *)
Record teardown_callback := {
  td_id : nat;
  td_call : list (option exn) -> exn + retval;
  td_name : exn + string
}.

(** What a run leaves behind besides the tables, in order of
    occurrence. *)
Inductive effect :=
| Dispatched (source : ctx_id) (resource : ResourceContainer)
| FactoryCalled (f : nat) (ctx : ctx_id)
| TeardownCalled (cb : nat) (args : list (option exn))
| Awaited (cb : nat)
| LoggedException (cb : nat) (e : exn).

(** [class Context]: the instance attributes set by [__init__]
    ([default_timeout] and [loop] are never read by the modelled
    methods), and [attrs], the instance attributes created later by
    [setattr].  [_teardown_callbacks] is [None] once [close] has deleted
    the attribute. *)
Record Context := {
  _parent : option ctx_id;
  _resources : gmap (pytype * string) ResourceContainer;
  _resource_factories : gmap (pytype * string) ResourceContainer;
  _resource_factories_by_context_attr : gmap string ResourceContainer;
  _teardown_callbacks : option (list (teardown_callback * bool));
  _closed : bool;
  attrs : gmap string PyVal
}.

(** [Context(parent)] *)
Definition Context_init (parent : option ctx_id) : Context :=
  {| _parent := parent;
     _resources := ∅;
     _resource_factories := ∅;
     _resource_factories_by_context_attr := ∅;
     _teardown_callbacks := Some [];
     _closed := false;
     attrs := ∅ |}.

(** The store: the contexts by allocation index, and the effects so far
    (oldest first).  An index the map does not hold stands for a context
    just built by [Context()]. *)
Record Store := {
  contexts : gmap ctx_id Context;
  effects : list effect
}.

Definition ctx (s : Store) (c : ctx_id) : Context :=
  default (Context_init None) (contexts s !! c).

Definition set_ctx (c : ctx_id) (x : Context) (s : Store) : Store :=
  {| contexts := <[c := x]> (contexts s); effects := effects s |}.

Definition emit (e : effect) (s : Store) : Store :=
  {| contexts := contexts s; effects := effects s ++ [e] |}.

Definition empty_store : Store := {| contexts := ∅; effects := [] |}.

(** [Context(parent)] allocated at the index [c]. *)
Definition new_context (c : ctx_id) (parent : option ctx_id) (s : Store) : Store :=
  set_ctx c (Context_init parent) s.

(** Field updates. *)
Definition with_resources (r : gmap (pytype * string) ResourceContainer) (x : Context) : Context :=
  {| _parent := _parent x; _resources := r;
     _resource_factories := _resource_factories x;
     _resource_factories_by_context_attr := _resource_factories_by_context_attr x;
     _teardown_callbacks := _teardown_callbacks x; _closed := _closed x;
     attrs := attrs x |}.

Definition with_resource_factories (r : gmap (pytype * string) ResourceContainer) (x : Context) : Context :=
  {| _parent := _parent x; _resources := _resources x;
     _resource_factories := r;
     _resource_factories_by_context_attr := _resource_factories_by_context_attr x;
     _teardown_callbacks := _teardown_callbacks x; _closed := _closed x;
     attrs := attrs x |}.

Definition with_factories_by_context_attr (r : gmap string ResourceContainer) (x : Context) : Context :=
  {| _parent := _parent x; _resources := _resources x;
     _resource_factories := _resource_factories x;
     _resource_factories_by_context_attr := r;
     _teardown_callbacks := _teardown_callbacks x; _closed := _closed x;
     attrs := attrs x |}.

Definition with_teardown_callbacks (r : option (list (teardown_callback * bool))) (x : Context) : Context :=
  {| _parent := _parent x; _resources := _resources x;
     _resource_factories := _resource_factories x;
     _resource_factories_by_context_attr := _resource_factories_by_context_attr x;
     _teardown_callbacks := r; _closed := _closed x;
     attrs := attrs x |}.

Definition with_closed (b : bool) (x : Context) : Context :=
  {| _parent := _parent x; _resources := _resources x;
     _resource_factories := _resource_factories x;
     _resource_factories_by_context_attr := _resource_factories_by_context_attr x;
     _teardown_callbacks := _teardown_callbacks x; _closed := b;
     attrs := attrs x |}.

Definition with_attrs (r : gmap string PyVal) (x : Context) : Context :=
  {| _parent := _parent x; _resources := _resources x;
     _resource_factories := _resource_factories x;
     _resource_factories_by_context_attr := _resource_factories_by_context_attr x;
     _teardown_callbacks := _teardown_callbacks x; _closed := _closed x;
     attrs := r |}.

(** ** The state and exception monad *)

Definition M (A : Type) : Type := Store -> (exn + A) * Store.

Definition ret {A} (a : A) : M A := fun s => (inr a, s).
Definition raise {A} (e : exn) : M A := fun s => (inl e, s).
Definition bind {A B} (m : M A) (k : A -> M B) : M B :=
  fun s => match m s with
           | (inl e, s') => (inl e, s')
           | (inr a, s') => k a s'
           end.

Notation "x <- m ;; k" := (bind m (fun x => k))
  (at level 100, m at next level, right associativity).
Notation "m ;;; k" := (bind m (fun _ => k))
  (at level 100, right associativity).

Definition read (c : ctx_id) : M Context := fun s => (inr (ctx s c), s).
Definition update (c : ctx_id) (f : Context -> Context) : M unit :=
  fun s => (inr tt, set_ctx c (f (ctx s c)) s).
Definition tell (e : effect) : M unit := fun s => (inr tt, emit e s).
Definition when (b : bool) (m : M unit) : M unit := if b then m else ret tt.

(** [for x in l: body(x)] *)
Fixpoint for_each {A} (l : list A) (body : A -> M unit) : M unit :=
  match l with
  | [] => ret tt
  | x :: l' => body x ;;; for_each l' body
  end.

(** ** [asphalt/core/context.py] *)

(** [resource_name_re = re.compile(r'\w+')], used with [fullmatch].
    Names are byte strings here and [\w] is taken over ASCII: a letter,
    a digit or the underscore. *)
Definition is_word_char (a : ascii) : bool :=
  let n := nat_of_ascii a in
  (Nat.leb 48 n && Nat.leb n 57) || (Nat.leb 65 n && Nat.leb n 90)
  || (Nat.leb 97 n && Nat.leb n 122) || Nat.eqb n 95.

Fixpoint all_word_chars (s : string) : bool :=
  match s with
  | EmptyString => true
  | String a s' => is_word_char a && all_word_chars s'
  end.

Definition resource_name_re_fullmatch (name : string) : bool :=
  match name with
  | EmptyString => false
  | _ => all_word_chars name
  end.

(** The truth value of an optional string: [None] and [''] are false. *)
Definition truthy (a : option string) : bool :=
  match a with
  | None => false
  | Some "" => false
  | Some _ => true
  end.

(** The names [getattr_static] resolves on the class [Context] or on
    [object]; none of them holds [None]. *)
Definition Context_class_attrs : list string :=
  [ "resource_added"; "parent"; "context_chain"; "_check_closed";
    "add_teardown_callback"; "close"; "add_resource";
    "add_resource_factory"; "get_resources"; "get_resource";
    "require_resource"; "request_resource";
    "__init__"; "__getattr__"; "__enter__"; "__exit__"; "__aenter__";
    "__aexit__"; "__doc__"; "__module__"; "__dict__"; "__weakref__";
    "__class__"; "__delattr__"; "__dir__"; "__eq__"; "__format__";
    "__ge__"; "__getattribute__"; "__gt__"; "__hash__";
    "__init_subclass__"; "__le__"; "__lt__"; "__ne__"; "__new__";
    "__reduce__"; "__reduce_ex__"; "__repr__"; "__setattr__";
    "__sizeof__"; "__str__"; "__subclasshook__" ].

(** The instance attributes [__init__] sets to something that is never
    [None]. *)
Definition Context_init_attrs : list string :=
  [ "_resources"; "_resource_factories";
    "_resource_factories_by_context_attr"; "_closed"; "default_timeout";
    "loop" ].

(** [getattr_static(self, a, None) is not None].  An attribute created by
    [setattr] is kept in [attrs]; when [context_attr] names a slot that
    holds [None] or was deleted ([_parent] of a root, [_teardown_callbacks]
    after [close]), Python overwrites the slot, the model keeps the slot
    and records the value in [attrs]. *)
Definition getattr_static_is_not_None (x : Context) (a : string) : bool :=
  match attrs x !! a with
  | Some v => negb (is_None v)
  | None =>
      bool_decide (a ∈ Context_class_attrs)
      || bool_decide (a ∈ Context_init_attrs)
      || (bool_decide (a = "_parent") && bool_decide (is_Some (_parent x)))
      || (bool_decide (a = "_teardown_callbacks")
          && bool_decide (is_Some (_teardown_callbacks x)))
  end.

(** [setattr(self, a, value)] *)
Definition setattr (self : ctx_id) (a : string) (value : PyVal) : M unit :=
  update self (fun x => with_attrs (<[a := value]> (attrs x)) x).

(** [self.resource_added.dispatch(resource)] *)
Definition resource_added_dispatch (self : ctx_id) (resource : ResourceContainer) : M unit :=
  tell (Dispatched self resource).

(** [Context._check_closed] *)
Definition _check_closed (self : ctx_id) : M unit :=
  x <- read self ;;
  if _closed x then raise RuntimeError else ret tt.

(** [Context.add_resource].  [types] is the sequence of types; a single
    type given in place of a sequence is the one-element sequence. *)
Definition add_resource (self : ctx_id) (value : PyVal) (name : string)
    (context_attr : option string) (types : list pytype) : M ResourceContainer :=
  let types := match types with [] => [type_of value] | _ => types end in
  (if is_None value then raise ValueError else ret tt) ;;;
  (if negb (resource_name_re_fullmatch name) then raise ValueError else ret tt) ;;;
  x <- read self ;;
  (if truthy context_attr
      && getattr_static_is_not_None x (default "" context_attr)
   then raise ResourceConflict else ret tt) ;;;
  for_each types (fun resource_type =>
    x <- read self ;;
    if bool_decide (is_Some (_resources x !! (resource_type, name)))
    then raise ResourceConflict else ret tt) ;;;
  let resource :=
    {| value_or_factory := value; types := types; name := name;
       context_attr := context_attr; is_factory := false |} in
  for_each types (fun type_ =>
    update self (fun x =>
      with_resources (<[(type_, name) := resource]> (_resources x)) x)) ;;;
  when (truthy context_attr) (setattr self (default "" context_attr) value) ;;;
  resource_added_dispatch self resource ;;;
  ret resource.

(** [Context.add_resource_factory].  [assert check_argument_types()]
    rejects a [factory_callback] that is not callable. *)
Definition add_resource_factory (self : ctx_id) (factory_callback : PyVal)
    (types : list pytype) (name : string) (context_attr : option string)
    : M ResourceContainer :=
  (match factory_callback with
   | PyCallable _ _ _ => ret tt
   | _ => raise TypeError
   end) ;;;
  (if negb (resource_name_re_fullmatch name) then raise ValueError else ret tt) ;;;
  (match factory_callback with
   | PyCallable _ true _ => raise TypeError
   | _ => ret tt
   end) ;;;
  (match types with [] => raise ValueError | _ => ret tt end) ;;;
  x <- read self ;;
  (if match context_attr with
      | Some a => bool_decide (is_Some (_resource_factories_by_context_attr x !! a))
      | None => false
      end
   then raise ResourceConflict else ret tt) ;;;
  for_each types (fun type_ =>
    x <- read self ;;
    if bool_decide (is_Some (_resource_factories x !! (type_, name)))
    then raise ResourceConflict else ret tt) ;;;
  let resource :=
    {| value_or_factory := factory_callback; types := types; name := name;
       context_attr := context_attr; is_factory := true |} in
  for_each types (fun type_ =>
    update self (fun x =>
      with_resource_factories
        (<[(type_, name) := resource]> (_resource_factories x)) x)) ;;;
  when (truthy context_attr)
    (update self (fun x =>
       with_factories_by_context_attr
         (<[default "" context_attr := resource]>
            (_resource_factories_by_context_attr x)) x)) ;;;
  resource_added_dispatch self resource ;;;
  ret resource.

(** Calling [f(ctx)]: the call is recorded, then returns or raises; an
    object that is not callable raises [TypeError]. *)
Definition call_with_context (f : PyVal) (c : ctx_id) : M PyVal :=
  match f with
  | PyCallable fid _ call =>
      fun s =>
        match call c (length (effects s)) with
        | inl e => (inl e, emit (FactoryCalled fid c) s)
        | inr v => (inr v, emit (FactoryCalled fid c) s)
        end
  | _ => raise TypeError
  end.

(** [ResourceContainer.generate_value] *)
Definition generate_value (self : ResourceContainer) (c : ctx_id) : M PyVal :=
  (if is_factory self then ret tt else raise AssertionError) ;;;
  value <- call_with_context (value_or_factory self) c ;;
  _ <- add_resource c value (name self) (context_attr self) (types self) ;;
  ret value.

(** [Context.context_chain]: [self], its parent, and so on up to the
    root.  A context is allocated after its parent, so the walk from the
    context of index [c] makes at most [c + 1] steps. *)
Fixpoint chain_from (fuel : nat) (s : Store) (c : ctx_id) : list ctx_id :=
  match fuel with
  | 0 => []
  | S fuel' =>
      c :: match _parent (ctx s c) with
           | Some p => chain_from fuel' s p
           | None => []
           end
  end.

Definition context_chain (s : Store) (self : ctx_id) : list ctx_id :=
  chain_from (S self) s self.

(** [next((table(ctx)[key] for ctx in chain if key in table(ctx)), None)] *)
Fixpoint next_in_chain (table : Context -> gmap (pytype * string) ResourceContainer)
    (s : Store) (chain : list ctx_id) (key : pytype * string) : option ResourceContainer :=
  match chain with
  | [] => None
  | c :: chain' =>
      match table (ctx s c) !! key with
      | Some r => Some r
      | None => next_in_chain table s chain' key
      end
  end.

(** [Context.get_resource]; the result [PyNone] is Python's [None]. *)
Definition get_resource (self : ctx_id) (type : pytype) (name : string) : M PyVal :=
  let key := (type, name) in
  x <- read self ;;
  match _resources x !! key with
  | Some resource => ret (value_or_factory resource)
  | None =>
      fun s =>
        match next_in_chain _resource_factories s (context_chain s self) key with
        | Some resource => generate_value resource self s
        | None =>
            match next_in_chain _resources s (context_chain s self) key with
            | Some resource => (inr (value_or_factory resource), s)
            | None => (inr PyNone, s)
            end
        end
  end.

(** [Context.add_teardown_callback].  Once [close] has deleted the list,
    the attribute lookup falls to [__getattr__], which is not modelled:
    the embedding raises the [AttributeError] of a lookup that finds
    nothing. *)
Definition add_teardown_callback (self : ctx_id) (callback : teardown_callback)
    (pass_exception : bool) : M unit :=
  x <- read self ;;
  match _teardown_callbacks x with
  | Some l =>
      update self (with_teardown_callbacks (Some (l ++ [(callback, pass_exception)])%list))
  | None => raise AttributeError
  end.

(** [try: body  except Exception: handler] *)
Definition try_except_Exception (body : M unit) (handler : exn -> M unit) : M unit :=
  fun s =>
    match body s with
    | (inl e, s') =>
        if isinstance_Exception e then handler e s' else (inl e, s')
    | (inr a, s') => (inr a, s')
    end.

(** The body of the [try] in [close]: the call, then the [await] of what
    it returned when that is awaitable. *)
Definition call_teardown (callback : teardown_callback) (pass_exception : bool)
    (exception : option exn) : M unit :=
  let args := if pass_exception then [exception] else [] in
  tell (TeardownCalled (td_id callback) args) ;;;
  match td_call callback args with
  | inl e => raise e
  | inr Plain => ret tt
  | inr (Awaitable raised) =>
      tell (Awaited (td_id callback)) ;;;
      match raised with
      | Some e => raise e
      | None => ret tt
      end
  end.

(** The handler of the [try] in [close]:
    [logger.exception('Error calling teardown callback %s',
    callable_name(callback))].  The argument is evaluated first, and what
    it raises leaves the handler, and [close] with it. *)
Definition log_teardown_error (callback : teardown_callback) (e : exn) : M unit :=
  match td_name callback with
  | inl e' => raise e'
  | inr _ => tell (LoggedException (td_id callback) e)
  end.

(** [Context.close].  The callbacks run one after the other with no
    other task interleaved.  A missing [_teardown_callbacks] (only
    possible on a closed context, which [_check_closed] stops before)
    raises [AttributeError]. *)
Definition close (self : ctx_id) (exception : option exn) : M unit :=
  _check_closed self ;;;
  update self (with_closed true) ;;;
  x <- read self ;;
  match _teardown_callbacks x with
  | None => raise AttributeError
  | Some l =>
      let callbacks := rev l in
      update self (with_teardown_callbacks None) ;;;
      for_each callbacks (fun cb =>
        try_except_Exception
          (call_teardown (fst cb) (snd cb) exception)
          (log_teardown_error (fst cb)))
  end.







(** ** [src/asphalt/core/_component.py] *)

Module Component.

(** *** [ComponentContext] *)

Inductive status_t := preparing | starting.

(** The attributes of a [ComponentContext] its methods read; [_parent]
    is set by the initialiser of the base class. *)
Record ComponentContext := {
  _parent : option ctx_id;
  _default_resource_name : string;
  status : status_t
}.

(** [name or default] *)
Definition name_or (name : option string) (default_name : string) : string :=
  match name with
  | None => default_name
  | Some "" => default_name
  | Some n => n
  end.

Section ComponentContextMethods.

(** The base class [Context] of [_context.py] is not among the sources:
    its two methods are parameters, acting on whatever state [W] the
    base class keeps and raising or not.  The arguments are [self],
    the value or the factory callback, [name], [types], [description]
    and (for a resource) [teardown_callback]. *)
Variable W : Type.
Variable Context_add_resource :
  ctx_id -> PyVal -> option string -> list pytype -> option string ->
  option nat -> W -> option exn * W.
Variable Context_add_resource_factory :
  ctx_id -> PyVal -> option string -> option (list pytype) ->
  option string -> W -> option exn * W.

(** [ComponentContext.add_resource] on the object [o] at [self]. *)
Definition add_resource (self : ctx_id) (o : ComponentContext)
    (value : PyVal) (name : option string) (types : list pytype)
    (description : option string) (teardown_callback : option nat)
    (w : W) : option exn * W :=
  let name :=
    match status o with preparing => Some "default" | starting => name end in
  match Context_add_resource self value name types description
          teardown_callback w with
  | (Some e, w') => (Some e, w')
  | (None, w') =>
      match _parent o, status o with
      | Some parent, starting =>
          Context_add_resource parent value
            (Some (name_or name (_default_resource_name o)))
            types description teardown_callback w'
      | _, _ => (None, w')
      end
  end.

(** [add_resource_factory] called on the object at [self], whatever its
    class: [objs] holds the contexts that are [ComponentContext]s, any
    other index is a plain [Context].  The call on [self._parent] is
    dispatched on the class of the parent; a context is allocated after
    its parent, so [self + 1] nested calls are enough ([fuel]). *)
Fixpoint add_resource_factory_at (fuel : nat)
    (objs : gmap ctx_id ComponentContext) (self : ctx_id)
    (factory_callback : PyVal) (name : option string)
    (types : option (list pytype)) (description : option string)
    (w : W) : option exn * W :=
  match objs !! self with
  | None =>
      Context_add_resource_factory self factory_callback name types
        description w
  | Some o =>
      let name :=
        match status o with preparing => Some "default" | starting => name end in
      match Context_add_resource_factory self factory_callback name types
              description w with
      | (Some e, w') => (Some e, w')
      | (None, w') =>
          match _parent o, status o with
          | Some parent, starting =>
              match fuel with
              | S fuel' =>
                  add_resource_factory_at fuel' objs parent
                    factory_callback name types description w'
              | 0 => (Some RuntimeError, w')
              end
          | _, _ => (None, w')
          end
      end
  end.

(** [ComponentContext.add_resource_factory] *)
Definition add_resource_factory (objs : gmap ctx_id ComponentContext)
    (self : ctx_id) (factory_callback : PyVal) (name : option string)
    (types : option (list pytype)) (description : option string)
    : W -> option exn * W :=
  add_resource_factory_at (S self) objs self factory_callback name types
    description.

End ComponentContextMethods.

(** A base class that only records the calls it receives and never
    raises, to observe what the methods of [ComponentContext] ask of it. *)
Inductive base_call :=
| AddResource (target : ctx_id) (value : PyVal) (name : option string)
              (types : list pytype)
| AddResourceFactory (target : ctx_id) (factory_callback : PyVal)
                     (name : option string) (types : option (list pytype)).

Definition recording_add_resource (self : ctx_id) (value : PyVal)
    (name : option string) (types : list pytype) (description : option string)
    (teardown_callback : option nat) (w : list base_call)
    : option exn * list base_call :=
  (None, (w ++ [AddResource self value name types])%list).

Definition recording_add_resource_factory (self : ctx_id)
    (factory_callback : PyVal) (name : option string)
    (types : option (list pytype)) (description : option string)
    (w : list base_call) : option exn * list base_call :=
  (None, (w ++ [AddResourceFactory self factory_callback name types])%list).

(** *** The start pass *)

(** A component: its identity and what its [prepare()] and [start()]
    coroutines do, as the list of their uninterrupted stretches (between
    two suspension points), each an opaque label. *)
Record Component := {
  comp_id : nat;
  prepare_body : list nat;
  start_body : list nat
}.

Inductive event :=
| ComponentStarted (c : nat)
| ContextEntered (path default_resource_name : string)
| PrepareCalled (c : nat)
| PrepareReturned (c : nat)
| Ran (c : nat) (label : nat)
| StatusStarting (path : string)
| StartSoon (c : nat) (final_path default_resource_name : string)
| StartCalled (c : nat)
| StartReturned (c : nat)
| ContextExited (path : string).

(** What is left to run of a task: nothing, an event then the rest, a
    call of [_start_component] not yet begun, or the exit of a task group
    that waits for its tasks before the rest runs. *)
#[warnings="-register-all"]
Inductive proc :=
| Stop
| Do (e : event) (k : proc)
| StartComponent (component : Component) (path default_resource_name : string)
| TaskGroup (tasks : list proc) (k : proc).


(** [alias.split("/", 1)[1]] when ["/" in alias] *)
Fixpoint after_slash (alias : string) : option string :=
  match alias with
  | EmptyString => None
  | String a rest => if Ascii.eqb a "/" then Some rest else after_slash rest
  end.

Definition child_default_resource_name (alias : string) : string :=
  match after_slash alias with
  | Some rest => rest
  | None => "default"
  end.

(** [f"{path}.{alias}" if path else alias] *)
Definition final_path (path alias : string) : string :=
  match path with
  | EmptyString => alias
  | _ => path ++ "." ++ alias
  end.







(** A finished task. *)
#[warnings="-register-all"]
Inductive done : proc -> Prop :=
| done_Stop : done Stop
| done_TaskGroup tasks k :
    Forall done tasks -> done k -> done (TaskGroup tasks k).





End Component.

(** ** Definitions for the statements *)

(** *** Registration: checks and outcome *)

(** The conflict loops of [add_resource] and [add_resource_factory]. *)
Definition conflict_check (table : Context -> gmap (pytype * string) ResourceContainer)
    (self : ctx_id) (name : string) (t : pytype) : M unit :=
  x <- read self ;;
  if bool_decide (is_Some (table x !! (t, name)))
  then raise ResourceConflict else ret tt.

(** What the registration loop of [add_resource] leaves in the store. *)
Definition store_under (self : ctx_id) (name : string) (r : ResourceContainer)
    (tys : list pytype) : M unit :=
  for_each tys (fun type_ =>
    update self (fun x =>
      with_resources (<[(type_, name) := r]> (_resources x)) x)).

(** [y] is [x] but for its resource table. *)
Record same_but_resources (x y : Context) : Prop := {
  sbr_parent : _parent y = _parent x;
  sbr_factories : _resource_factories y = _resource_factories x;
  sbr_by_attr : _resource_factories_by_context_attr y
                = _resource_factories_by_context_attr x;
  sbr_teardown : _teardown_callbacks y = _teardown_callbacks x;
  sbr_closed : _closed y = _closed x;
  sbr_attrs : attrs y = attrs x
}.

(** The types a resource is registered with: those given, or the class
    of the value when none is given. *)
Definition effective_types (value : PyVal) (tys : list pytype) : list pytype :=
  match tys with [] => [type_of value] | _ => tys end.

(** The checks of [add_resource] in their order, as a function of the
    context alone. *)
Definition add_resource_error (x : Context) (value : PyVal) (name : string)
    (context_attr : option string) (tys : list pytype) : option exn :=
  if is_None value then Some ValueError
  else if negb (resource_name_re_fullmatch name) then Some ValueError
  else if truthy context_attr
          && getattr_static_is_not_None x (default "" context_attr)
  then Some ResourceConflict
  else if existsb (fun t => bool_decide (is_Some (_resources x !! (t, name))))
            (effective_types value tys)
  then Some ResourceConflict
  else None.

(** The container [add_resource] builds. *)
Definition new_resource (value : PyVal) (name : string)
    (context_attr : option string) (tys : list pytype) : ResourceContainer :=
  {| value_or_factory := value; types := effective_types value tys;
     name := name; context_attr := context_attr; is_factory := false |}.

(** [s'] is [s] after the resource [r] was registered on [self]. *)
Record resource_added_to (self : ctx_id) (r : ResourceContainer) (s s' : Store)
  : Prop := {
  rat_effects : effects s' = (effects s ++ [Dispatched self r])%list;
  rat_others : forall d, d <> self -> ctx s' d = ctx s d;
  rat_parent : _parent (ctx s' self) = _parent (ctx s self);
  rat_factories :
    _resource_factories (ctx s' self) = _resource_factories (ctx s self);
  rat_by_attr :
    _resource_factories_by_context_attr (ctx s' self)
    = _resource_factories_by_context_attr (ctx s self);
  rat_teardown :
    _teardown_callbacks (ctx s' self) = _teardown_callbacks (ctx s self);
  rat_closed : _closed (ctx s' self) = _closed (ctx s self);
  rat_attrs :
    attrs (ctx s' self) =
    if truthy (context_attr r)
    then <[default "" (context_attr r) := value_or_factory r]> (attrs (ctx s self))
    else attrs (ctx s self);
  rat_resources :
    forall k, _resources (ctx s' self) !! k =
              if bool_decide (k.2 = name r /\ k.1 ∈ types r) then Some r
              else _resources (ctx s self) !! k
}.

(** What the registration loop of [add_resource_factory] leaves in the
    store. *)
Definition store_factory_under (self : ctx_id) (name : string)
    (r : ResourceContainer) (tys : list pytype) : M unit :=
  for_each tys (fun type_ =>
    update self (fun x =>
      with_resource_factories
        (<[(type_, name) := r]> (_resource_factories x)) x)).

(** [y] is [x] but for its factory table. *)
Record same_but_factories (x y : Context) : Prop := {
  sbf_parent : _parent y = _parent x;
  sbf_resources : _resources y = _resources x;
  sbf_by_attr : _resource_factories_by_context_attr y
                = _resource_factories_by_context_attr x;
  sbf_teardown : _teardown_callbacks y = _teardown_callbacks x;
  sbf_closed : _closed y = _closed x;
  sbf_attrs : attrs y = attrs x
}.

(** [callable(f)] and [iscoroutinefunction(f)] *)
Definition is_callable (f : PyVal) : bool :=
  match f with PyCallable _ _ _ => true | _ => false end.

Definition is_coroutine_function (f : PyVal) : bool :=
  match f with PyCallable _ b _ => b | _ => false end.

(** [context_attr in self._resource_factories_by_context_attr] *)
Definition factory_attr_taken (x : Context) (a : option string) : bool :=
  match a with
  | Some a' => bool_decide (is_Some (_resource_factories_by_context_attr x !! a'))
  | None => false
  end.

(** The checks of [add_resource_factory] in their order. *)
Definition add_resource_factory_error (x : Context) (f : PyVal)
    (tys : list pytype) (name : string) (context_attr : option string)
    : option exn :=
  if negb (is_callable f) then Some TypeError
  else if negb (resource_name_re_fullmatch name) then Some ValueError
  else if is_coroutine_function f then Some TypeError
  else if bool_decide (tys = []) then Some ValueError
  else if factory_attr_taken x context_attr then Some ResourceConflict
  else if existsb
            (fun t => bool_decide (is_Some (_resource_factories x !! (t, name))))
            tys
  then Some ResourceConflict
  else None.

(** The container [add_resource_factory] builds. *)
Definition new_factory (f : PyVal) (tys : list pytype) (name : string)
    (context_attr : option string) : ResourceContainer :=
  {| value_or_factory := f; types := tys; name := name;
     context_attr := context_attr; is_factory := true |}.

(** [s'] is [s] after the factory [r] was registered on [self]. *)
Record factory_added_to (self : ctx_id) (r : ResourceContainer) (s s' : Store)
  : Prop := {
  fat_effects : effects s' = (effects s ++ [Dispatched self r])%list;
  fat_others : forall d, d <> self -> ctx s' d = ctx s d;
  fat_parent : _parent (ctx s' self) = _parent (ctx s self);
  fat_resources : _resources (ctx s' self) = _resources (ctx s self);
  fat_teardown :
    _teardown_callbacks (ctx s' self) = _teardown_callbacks (ctx s self);
  fat_closed : _closed (ctx s' self) = _closed (ctx s self);
  fat_attrs : attrs (ctx s' self) = attrs (ctx s self);
  fat_by_attr :
    _resource_factories_by_context_attr (ctx s' self) =
    if truthy (context_attr r)
    then <[default "" (context_attr r) := r]>
           (_resource_factories_by_context_attr (ctx s self))
    else _resource_factories_by_context_attr (ctx s self);
  fat_factories :
    forall k, _resource_factories (ctx s' self) !! k =
              if bool_decide (k.2 = name r /\ k.1 ∈ types r) then Some r
              else _resource_factories (ctx s self) !! k
}.

(** The exceptions [add_resource] raises by itself. *)
Definition add_resource_exception (e : exn) : Prop :=
  e = ValueError \/ e = ResourceConflict.

(** *** Stores and callbacks of the examples *)

(** A store in which the context [0] was closed. *)
Definition closed_store : Store :=
  snd (close 0 None (new_context 0 None empty_store)).

(** A synchronous factory that builds an object of class [cls] for the
    context it is given; the identity of the object is the moment of
    the call. *)
Definition make_object (cls : pytype) : PyVal :=
  PyCallable 7 false (fun _ k => inr (PyObj cls k)).

(** A store with a root context [0] that holds a resource registered as
    [str] and as [object] and bound to the attribute [x], and a child
    context [1] of [0]. *)
Definition example_store : Store :=
  snd (add_resource 0 (PyObj "str" 1) "default" (Some "x") ["str"; "object"]
         (new_context 1 (Some 0) (new_context 0 None empty_store))).

(** *** Bindings, chains, teardown, requests *)

(** [a] is an instance attribute that [add_resource] has set. *)
Definition bound_as_attribute (s : Store) (c : ctx_id) (a : string) : Prop :=
  exists v, attrs (ctx s c) !! a = Some v /\ is_None v = false.

(** [a] is the context attribute of a factory registered on [c]. *)
Definition bound_as_factory_alias (s : Store) (c : ctx_id) (a : string) : Prop :=
  is_Some (_resource_factories_by_context_attr (ctx s c) !! a).

(** A store whose root context [0] holds a factory for [str] with the
    context attribute [svc]. *)
Definition factory_store : Store :=
  snd (add_resource_factory 0 (make_object "str") ["str"] "default" (Some "svc")
         (new_context 1 (Some 0) (new_context 0 None empty_store))).

(** [d] is the first context of [chain] whose [table] holds [key], and
    [r] is what it holds there. *)
Definition nearest (table : Context -> gmap (pytype * string) ResourceContainer)
    (s : Store) (chain : list ctx_id) (key : pytype * string)
    (d : ctx_id) (r : ResourceContainer) : Prop :=
  exists i,
    chain !! i = Some d /\ table (ctx s d) !! key = Some r /\
    forall j d', j < i -> chain !! j = Some d' -> table (ctx s d') !! key = None.

(** No context of [chain] holds [key] in its [table]. *)
Definition none_in_chain (table : Context -> gmap (pytype * string) ResourceContainer)
    (s : Store) (chain : list ctx_id) (key : pytype * string) : Prop :=
  forall d, d ∈ chain -> table (ctx s d) !! key = None.

(** Contexts are allocated after their parent. *)
Definition parents_older (s : Store) : Prop :=
  forall d p, _parent (ctx s d) = Some p -> p < d.

(** A chain [2 -> 1 -> 0]: the root [0] holds an [int] resource and a
    factory for [str]; [1] holds an [int] and a [str] resource of its
    own; [2] holds nothing. *)
Definition tiers_store : Store :=
  let s0 := new_context 2 (Some 1)
              (new_context 1 (Some 0) (new_context 0 None empty_store)) in
  let s1 := snd (add_resource 0 (PyObj "int" 10) "default" None [] s0) in
  let s2 := snd (add_resource_factory 0 (make_object "str") ["str"] "default"
                   None s1) in
  let s3 := snd (add_resource 1 (PyObj "int" 11) "default" None [] s2) in
  snd (add_resource 1 (PyObj "str" 12) "default" None [] s3).

(** A root context [0] that holds a factory for [str], with two child
    contexts [1] and [2]. *)
Definition siblings_store : Store :=
  snd (add_resource_factory 0 (make_object "str") ["str"] "default" None
         (new_context 2 (Some 0)
            (new_context 1 (Some 0) (new_context 0 None empty_store)))).

(** The arguments [close] calls a callback with. *)
Definition teardown_args (pass_exception : bool) (exception : option exn)
    : list (option exn) :=
  if pass_exception then [exception] else [].

(** The exception a callback ends with, if any: raised by the call, or
    by the [await] of what it returned. *)
Definition teardown_raises (exception : option exn)
    (cb : teardown_callback * bool) : option exn :=
  match td_call (fst cb) (teardown_args (snd cb) exception) with
  | inl e => Some e
  | inr Plain => None
  | inr (Awaitable raised) => raised
  end.

(** What the specification says [close] does with one callback: call it
    (with the terminating exception when it asked for it), await what it
    returned when that is awaitable, log the exception it ended with. *)
Definition teardown_effects (exception : option exn)
    (cb : teardown_callback * bool) : list effect :=
  ([TeardownCalled (td_id (fst cb)) (teardown_args (snd cb) exception)]
   ++ match td_call (fst cb) (teardown_args (snd cb) exception) with
      | inr (Awaitable _) => [Awaited (td_id (fst cb))]
      | _ => []
      end
   ++ match teardown_raises exception cb with
      | Some e => [LoggedException (td_id (fst cb)) e]
      | None => []
      end)%list.



Definition cb_async : teardown_callback :=
  {| td_id := 2; td_call := fun _ => inr (Awaitable None);
     td_name := inr "app.stop" |}.
Definition cb_failing : teardown_callback :=
  {| td_id := 3; td_call := fun _ => inl ValueError;
     td_name := inr "app.failing" |}.


(** Nothing answers a request for [key] made on [self]: neither a
    resource of [self], nor a factory or a resource in its chain. *)
Definition nothing_available (s : Store) (self : ctx_id) (key : pytype * string) : Prop :=
  _resources (ctx s self) !! key = None /\
  none_in_chain _resource_factories s (context_chain s self) key /\
  none_in_chain _resources s (context_chain s self) key.





(** A context [0] of class [Context], a [ComponentContext] [1] under it
    and a [ComponentContext] [2] under [1], both in the status
    [starting]. *)
Definition queue_context : Component.ComponentContext :=
  {| Component._parent := Some 0;
     Component._default_resource_name := "queue";
     Component.status := Component.starting |}.

(** The [ComponentContext] [2], a child of [1]. *)
Definition cache_context : Component.ComponentContext :=
  {| Component._parent := Some 1;
     Component._default_resource_name := "cache";
     Component.status := Component.starting |}.

(** The contexts that are [ComponentContext]s, by index. *)
Definition starting_contexts : gmap ctx_id Component.ComponentContext :=
  {[ 1 := queue_context; 2 := cache_context ]}.

(** The calls a program makes on its contexts. *)
Inductive call :=
| NewContext (c : ctx_id) (parent : option ctx_id)
| AddResource (self : ctx_id) (value : PyVal) (name : string)
              (context_attr : option string) (types : list pytype)
| AddResourceFactory (self : ctx_id) (factory_callback : PyVal)
                     (types : list pytype) (name : string)
                     (context_attr : option string)
| GetResource (self : ctx_id) (type : pytype) (name : string)
| AddTeardownCallback (self : ctx_id) (callback : teardown_callback)
                      (pass_exception : bool)
| Close (self : ctx_id) (exception : option exn).

(** The store a call leaves, whether it returns or raises.  A context
    is built at an index that is not in use. *)
Definition after_call (s : Store) (c : call) : Store :=
  match c with
  | NewContext c parent =>
      match contexts s !! c with
      | None => new_context c parent s
      | Some _ => s
      end
  | AddResource self value name context_attr types =>
      snd (add_resource self value name context_attr types s)
  | AddResourceFactory self factory_callback types name context_attr =>
      snd (add_resource_factory self factory_callback types name context_attr s)
  | GetResource self type name => snd (get_resource self type name s)
  | AddTeardownCallback self callback pass_exception =>
      snd (add_teardown_callback self callback pass_exception s)
  | Close self exception => snd (close self exception s)
  end.

(** The store after a sequence of calls. *)
Definition after_calls (s : Store) (calls : list call) : Store :=
  fold_left after_call calls s.

(** Every attribute and every factory alias bound in [s] is bound to
    the same thing in [s']. *)
Definition keeps_bindings (s s' : Store) : Prop :=
  forall c a,
    (forall v, attrs (ctx s c) !! a = Some v -> is_None v = false ->
               attrs (ctx s' c) !! a = Some v) /\
    (forall r, _resource_factories_by_context_attr (ctx s c) !! a = Some r ->
               _resource_factories_by_context_attr (ctx s' c) !! a = Some r).

(** *** Tactics *)

(** Closed goals about the example stores are settled by evaluation;
    [each_of_chain] does so for every element of an explicit chain. *)
Ltac evaluate := vm_compute; reflexivity.


Ltac each_of_chain :=
  let d := fresh "d" in
  let Hd := fresh "Hd" in
  intros d Hd;
  repeat (apply elem_of_cons in Hd as [->|Hd]; [evaluate|]);
  apply elem_of_nil in Hd; destruct Hd.

(** *** Invariants of the store *)

(** Every entry of the resource table is a resource registered under
    its own name and one of its own types, with a value. *)
Definition resources_well_keyed (x : Context) : Prop :=
  forall T n r,
    _resources x !! (T, n) = Some r ->
    name r = n /\ T ∈ types r /\ is_factory r = false /\
    is_None (value_or_factory r) = false /\
    resource_name_re_fullmatch n = true.

(** Every entry of the factory table is a factory registered under its
    own name and one of its own types, with a synchronous callable. *)
Definition factories_well_keyed (x : Context) : Prop :=
  forall T n r,
    _resource_factories x !! (T, n) = Some r ->
    name r = n /\ T ∈ types r /\ is_factory r = true /\
    is_callable (value_or_factory r) = true /\
    is_coroutine_function (value_or_factory r) = false /\
    resource_name_re_fullmatch n = true.

(** Every factory alias names a factory that asked for this alias and
    that the factory table holds under each of its types. *)
Definition aliases_well_keyed (x : Context) : Prop :=
  forall a r,
    _resource_factories_by_context_attr x !! a = Some r ->
    context_attr r = Some a /\ a <> "" /\
    forall T, T ∈ types r -> _resource_factories x !! (T, name r) = Some r.

(** The attribute a resource asked for holds the value of the resource. *)
Definition attributes_hold_resources (x : Context) : Prop :=
  forall k r,
    _resources x !! k = Some r ->
    truthy (context_attr r) = true ->
    attrs x !! default "" (context_attr r) = Some (value_or_factory r).

(** No attribute set by [setattr] holds [None]. *)
Definition attributes_not_None (x : Context) : Prop :=
  forall a v, attrs x !! a = Some v -> is_None v = false.

(** The list of teardown callbacks is deleted exactly on a closed
    context. *)
Definition closed_iff_deleted (x : Context) : Prop :=
  _teardown_callbacks x = None <-> _closed x = true.

Record context_invariant (x : Context) : Prop := {
  inv_resources : resources_well_keyed x;
  inv_factories : factories_well_keyed x;
  inv_aliases : aliases_well_keyed x;
  inv_attributes : attributes_hold_resources x;
  inv_not_None : attributes_not_None x;
  inv_closed : closed_iff_deleted x
}.

Definition store_invariant (s : Store) : Prop :=
  forall d, context_invariant (ctx s d).

(** A context is built after its parent. *)
Definition well_ordered (c : call) : Prop :=
  match c with
  | NewContext c (Some p) => p < c
  | _ => True
  end.

(** What was registered in [s] is registered in [s'], what was closed
    is closed, and a context that had a parent has the same parent. *)
Definition keeps_registrations (s s' : Store) : Prop :=
  forall d,
    (forall k r, _resources (ctx s d) !! k = Some r ->
                 _resources (ctx s' d) !! k = Some r) /\
    (forall k r, _resource_factories (ctx s d) !! k = Some r ->
                 _resource_factories (ctx s' d) !! k = Some r) /\
    (_closed (ctx s d) = true -> _closed (ctx s' d) = true) /\
    (forall p, _parent (ctx s d) = Some p -> _parent (ctx s' d) = Some p).

(** A root context [0] that holds a factory registered for [str] and
    for [object] with the context attribute [svc], and its child [1]. *)
Definition two_type_factory_store : Store :=
  snd (add_resource_factory 0 (make_object "str") ["str"; "object"] "default"
         (Some "svc") (new_context 1 (Some 0) (new_context 0 None empty_store))).

(** A factory that returns [None], and one that raises. *)
Definition make_None : PyVal := PyCallable 8 false (fun _ _ => inr PyNone).
Definition make_failure : PyVal := PyCallable 9 false (fun _ _ => inl (UserExc "OSError" true)).

(** A root context [0] that holds a factory for [str] that returns
    [None], and its child [1]. *)
Definition None_factory_store : Store :=
  snd (add_resource_factory 0 make_None ["str"] "default" None
         (new_context 1 (Some 0) (new_context 0 None empty_store))).



(** *** [require_resource], [get_resources], [__getattr__], [async with] *)

(** What [require_resource] raises: [ResourceNotFound(type, name)], which
    keeps the type and the name it was built with, or what [get_resource]
    raised. *)
Inductive lookup_exn :=
| ResourceNotFound (type : pytype) (name : string)
| Propagated (e : exn).

(** [Context.require_resource] *)
Definition require_resource (self : ctx_id) (type : pytype) (name : string)
    (s : Store) : (lookup_exn + PyVal) * Store :=
  match get_resource self type name s with
  | (inl e, s') => (inl (Propagated e), s')
  | (inr resource, s') =>
      if is_None resource then (inl (ResourceNotFound type name), s')
      else (inr resource, s')
  end.

(** [type is None or type in resource.types] *)
Definition type_matches (type : option pytype) (resource : ResourceContainer) : bool :=
  match type with
  | None => true
  | Some t => bool_decide (t ∈ types resource)
  end.

(** [Context.get_resources].  The set it returns is given by the list of
    its elements, in which a container is repeated when several keys or
    several contexts hold it.  The call on the parent passes [type] only,
    so [include_parents] is true there; the recursion ends at the root,
    after at most [self + 1] calls ([fuel]). *)
Fixpoint get_resources_from (fuel : nat) (s : Store) (self : ctx_id)
    (type : option pytype) (include_parents : bool) : list ResourceContainer :=
  match fuel with
  | 0 => []
  | S fuel' =>
      let resources :=
        List.filter (type_matches type)
          (map snd (map_to_list (_resources (ctx s self)))) in
      match include_parents, _parent (ctx s self) with
      | true, Some p => (resources ++ get_resources_from fuel' s p type true)%list
      | _, _ => resources
      end
  end.

Definition get_resources (s : Store) (self : ctx_id) (type : option pytype)
    (include_parents : bool) : list ResourceContainer :=
  get_resources_from (S self) s self type include_parents.




(** [next((f(ctx) for ctx in chain if f(ctx)), None)], with the context
    that answered. *)
Fixpoint first_in_chain {A} (f : Context -> option A) (s : Store)
    (chain : list ctx_id) : option (ctx_id * A) :=
  match chain with
  | [] => None
  | c :: chain' =>
      match f (ctx s c) with
      | Some a => Some (c, a)
      | None => first_in_chain f s chain'
      end
  end.

(** What an attribute lookup gives: a value (set by [setattr], or made
    by a factory), or the attribute [a] that the class or [__init__]
    gives the context [owner] (a method, a property, a table). *)
Inductive attr_value :=
| Value (v : PyVal)
| Builtin (owner : ctx_id) (a : string).

(** [getattr(ctx, name)] on the context [d] when
    [getattr_static(ctx, name, None)] is not [None]. *)
Definition getattr_of (x : Context) (d : ctx_id) (name : string) : attr_value :=
  match attrs x !! name with
  | Some v => Value v
  | None => Builtin d name
  end.

(** [factory = ctx._resource_factories_by_context_attr.get(name)], when
    [factory] is true. *)
Definition factory_for_attr (name : string) (x : Context) : option ResourceContainer :=
  _resource_factories_by_context_attr x !! name.

(** [getattr_static(ctx, name, None) is not None] *)
Definition has_attr (name : string) (x : Context) : option unit :=
  if getattr_static_is_not_None x name then Some tt else None.

(** [Context.__getattr__], which Python calls when the normal lookup of
    [name] on [self] has found nothing. *)
Definition __getattr__ (self : ctx_id) (name : string) : M attr_value :=
  fun s =>
    match first_in_chain (factory_for_attr name) s (context_chain s self) with
    | Some (_, factory) =>
        match generate_value factory self s with
        | (inl e, s') => (inl e, s')
        | (inr v, s') => (inr (Value v), s')
        end
    | None =>
        match first_in_chain (has_attr name) s (tail (context_chain s self)) with
        | Some (d, _) => (inr (getattr_of (ctx s d) d name), s)
        | None => (inl AttributeError, s)
        end
    end.

(** [d] is the first context of [chain] for which [f] answers, with [a]. *)
Definition first_at {A} (f : Context -> option A) (s : Store)
    (chain : list ctx_id) (d : ctx_id) (a : A) : Prop :=
  exists i,
    chain !! i = Some d /\ f (ctx s d) = Some a /\
    forall j d', j < i -> chain !! j = Some d' -> f (ctx s d') = None.

(** [f] answers for no context of [chain]. *)
Definition none_at {A} (f : Context -> option A) (s : Store)
    (chain : list ctx_id) : Prop :=
  forall d, d ∈ chain -> f (ctx s d) = None.


(** *** [context_teardown] *)









(** *** [Component.add_component] and the aliases of child components *)

Module Components.

(** The [type] of a child component: the name of an entry point, or a
    class. *)
Inductive component_type :=
| TypeName (name : string)
| TypeClass (cls : nat).

(** [type or alias] *)
Definition type_or_alias (type : option component_type) (alias : string)
    : component_type :=
  match type with
  | None => TypeName alias
  | Some (TypeName "") => TypeName alias
  | Some t => t
  end.

(** [s.split("/")[0]] *)
Fixpoint before_slash (s : string) : string :=
  match s with
  | EmptyString => EmptyString
  | String a rest =>
      if Ascii.eqb a "/" then EmptyString else String a (before_slash rest)
  end.

(** The type [_init_component] keeps for a child: [alias] when the
    configuration holds no [type], and of a string only what comes
    before its first slash. *)
Definition child_type (configured : option component_type) (alias : string)
    : component_type :=
  match default (TypeName alias) configured with
  | TypeName t =>
      if bool_decide (is_Some (Component.after_slash t))
      then TypeName (before_slash t)
      else TypeName t
  | TypeClass cls => TypeClass cls
  end.

Section AddComponent.

(** The keyword arguments [config] of a child component. *)
Variable Config : Type.

(** The attributes of a [Component] that [add_component] reads and
    writes; [_child_components] is a dict, kept in insertion order. *)
Record ComponentObject := {
  _child_components : option (list (string * (component_type * Config)));
  _component_started : bool
}.

(** The class attributes a new component starts with. *)
Definition Component_init : ComponentObject :=
  {| _child_components := None; _component_started := false |}.

(** [Component.add_component]; [alias] is a string. *)
Definition add_component (self : ComponentObject) (alias : string)
    (type : option component_type) (config : Config) : exn + ComponentObject :=
  if _component_started self then inl RuntimeError
  else if bool_decide (alias = "") then inl TypeError
  else
    let entry := (alias, (type_or_alias type alias, config)) in
    match _child_components self with
    | None =>
        inr {| _child_components := Some [entry];
               _component_started := _component_started self |}
    | Some children =>
        if bool_decide (alias ∈ map fst children) then inl ValueError
        else inr {| _child_components := Some (children ++ [entry])%list;
                    _component_started := _component_started self |}
    end.

(** [component._component_started = True], the first statement of
    [_start_component]. *)
Definition mark_started (self : ComponentObject) : ComponentObject :=
  {| _child_components := _child_components self; _component_started := true |}.

(** What a program does with a component: add a child, or start it. *)
Inductive component_call :=
| AddComponent (alias : string) (type : option component_type) (config : Config)
| Start.

(** The component after a call, whether the call returns or raises. *)
Definition after_component_call (self : ComponentObject) (c : component_call)
    : ComponentObject :=
  match c with
  | AddComponent alias type config =>
      match add_component self alias type config with
      | inr self' => self'
      | inl _ => self
      end
  | Start => mark_started self
  end.

(** The children added so far. *)
Definition children (self : ComponentObject)
    : list (string * (component_type * Config)) :=
  default [] (_child_components self).

End AddComponent.

Arguments _child_components {Config} _.
Arguments _component_started {Config} _.
Arguments Component_init {Config}.
Arguments add_component {Config} _ _ _ _.
Arguments mark_started {Config} _.
Arguments AddComponent {Config} _ _ _.
Arguments Start {Config}.
Arguments after_component_call {Config} _ _.
Arguments children {Config} _.

Section ComponentContextTeardown.

(** [Context.add_teardown_callback] of the base class, which is not
    among the sources, as a parameter on its state [W]. *)
Variable W : Type.
Variable Context_add_teardown_callback :
  ctx_id -> nat -> bool -> W -> option exn * W.

(** [add_teardown_callback] called on the object at [self], whatever its
    class: [objs] holds the contexts that are [ComponentContext]s, any
    other index is a plain [Context].  A context is allocated after its
    parent, so [self + 1] nested calls are enough ([fuel]). *)
Fixpoint add_teardown_callback_at (fuel : nat)
    (objs : gmap ctx_id Component.ComponentContext) (self : ctx_id)
    (callback : nat) (pass_exception : bool) (w : W) : option exn * W :=
  match objs !! self with
  | None => Context_add_teardown_callback self callback pass_exception w
  | Some o =>
      match Component._parent o with
      | None => (Some AssertionError, w)
      | Some parent =>
          match fuel with
          | S fuel' =>
              add_teardown_callback_at fuel' objs parent callback pass_exception w
          | 0 => (Some RuntimeError, w)
          end
      end
  end.

(** [ComponentContext.add_teardown_callback] *)
Definition add_teardown_callback
    (objs : gmap ctx_id Component.ComponentContext) (self : ctx_id)
    (callback : nat) (pass_exception : bool) : W -> option exn * W :=
  add_teardown_callback_at (S self) objs self callback pass_exception.

End ComponentContextTeardown.

(** [base] is the nearest context at or above [c] that is not a
    [ComponentContext]. *)
Inductive nearest_plain_context (objs : gmap ctx_id Component.ComponentContext)
  : ctx_id -> ctx_id -> Prop :=
| npc_here c : objs !! c = None -> nearest_plain_context objs c c
| npc_up c o parent base :
    objs !! c = Some o -> Component._parent o = Some parent ->
    nearest_plain_context objs parent base ->
    nearest_plain_context objs c base.

(** A base class that records the callbacks it is given. *)
Definition recording_add_teardown_callback (self : ctx_id) (callback : nat)
    (pass_exception : bool) (w : list (ctx_id * nat * bool))
    : option exn * list (ctx_id * nat * bool) :=
  (None, (w ++ [(self, callback, pass_exception)])%list).

End Components.

(** *** A schedule of the start pass *)



(** *** The contexts a factory is propagated to *)

(** The name under which [add_resource_factory], called with [name] on
    the context [d], registers the factory there. *)
Definition factory_name_at (objs : gmap ctx_id Component.ComponentContext)
    (name : option string) (d : ctx_id) : option string :=
  match objs !! d with
  | Some o =>
      match Component.status o with
      | Component.preparing => Some "default"
      | Component.starting => name
      end
  | None => name
  end.

(** The contexts from [c] upwards as long as they are [ComponentContext]s
    in the status [starting], and the first context above them. *)
Inductive propagation_chain (objs : gmap ctx_id Component.ComponentContext)
  : ctx_id -> list ctx_id -> Prop :=
| pc_plain c : objs !! c = None -> propagation_chain objs c [c]
| pc_stop c o :
    objs !! c = Some o ->
    Component.status o = Component.preparing \/ Component._parent o = None ->
    propagation_chain objs c [c]
| pc_up c o parent l :
    objs !! c = Some o ->
    Component.status o = Component.starting ->
    Component._parent o = Some parent ->
    propagation_chain objs parent l ->
    propagation_chain objs c (c :: l).

(** The method of the base class called on each context of [l] in turn,
    up to the first call that raises. *)
Fixpoint register_on_each {W : Type}
    (Context_add_resource_factory :
       ctx_id -> PyVal -> option string -> option (list pytype) ->
       option string -> W -> option exn * W)
    (name_of : ctx_id -> option string) (factory_callback : PyVal)
    (types : option (list pytype)) (description : option string)
    (l : list ctx_id) (w : W) : option exn * W :=
  match l with
  | [] => (None, w)
  | d :: l' =>
      match Context_add_resource_factory d factory_callback (name_of d) types
              description w with
      | (Some e, w') => (Some e, w')
      | (None, w') =>
          register_on_each Context_add_resource_factory name_of factory_callback
            types description l' w'
      end
  end.

(** * Properties *)

(** ** The store and the monad *)

Lemma ctx_set_ctx_eq c x s : ctx (set_ctx c x s) c = x.
Proof. unfold ctx, set_ctx; simpl. by rewrite lookup_insert_eq. Qed.

Lemma ctx_set_ctx_ne c d x s : c <> d -> ctx (set_ctx c x s) d = ctx s d.
Proof. intros H. unfold ctx, set_ctx; simpl. by rewrite lookup_insert_ne. Qed.

Lemma ctx_same_contexts s s' c : contexts s = contexts s' -> ctx s c = ctx s' c.
Proof. intros H. unfold ctx. by rewrite H. Qed.

Lemma ctx_emit e s c : ctx (emit e s) c = ctx s c.
Proof. reflexivity. Qed.

Lemma conflict_check_loop table self name tys s :
  for_each tys (conflict_check table self name) s =
  (if existsb (fun t => bool_decide (is_Some (table (ctx s self) !! (t, name)))) tys
   then inl ResourceConflict else inr tt, s).
Proof.
  induction tys as [|t tys IH]; simpl; [done|].
  unfold bind, conflict_check at 1, bind, read.
  destruct (bool_decide _); simpl; [done|]. apply IH.
Qed.

Lemma store_under_spec self name r tys s :
  exists s',
    store_under self name r tys s = (inr tt, s') /\
    effects s' = effects s /\
    (forall d, d <> self -> ctx s' d = ctx s d) /\
    same_but_resources (ctx s self) (ctx s' self) /\
    (forall k, _resources (ctx s' self) !! k =
               if bool_decide (k.2 = name /\ k.1 ∈ tys) then Some r
               else _resources (ctx s self) !! k).
Proof.
  revert s. induction tys as [|t tys IH]; intros s.
  - exists s. repeat split; try done. intros k.
    rewrite bool_decide_eq_false_2; [done|]. intros [_ H]. by apply elem_of_nil in H.
  - unfold store_under in *. simpl. unfold bind, update at 1.
    set (s1 := set_ctx self _ s).
    destruct (IH s1) as (s' & -> & He & Hd & Hs & Hr).
    exists s'. split; [done|]. split; [done|]. split.
    { intros d Hne. rewrite Hd by done. subst s1. by rewrite ctx_set_ctx_ne. }
    subst s1. rewrite ctx_set_ctx_eq in Hs, Hr. split.
    { destruct Hs; constructor; simpl in *; congruence. }
    intros k. rewrite Hr. simpl.
    destruct (decide (k.2 = name /\ k.1 ∈ tys)) as [Hin|Hnin].
    + rewrite !bool_decide_eq_true_2; [done| |done].
      destruct Hin; split; [done|]. by apply elem_of_cons; right.
    + rewrite (bool_decide_eq_false_2 _ Hnin).
      destruct (decide (k = (t, name))) as [->|Hk].
      * rewrite lookup_insert_eq. rewrite bool_decide_eq_true_2; [done|].
        simpl. split; [done|]. by apply elem_of_cons; left.
      * rewrite lookup_insert_ne by done.
        rewrite bool_decide_eq_false_2; [done|].
        intros [Hn Ht]. apply elem_of_cons in Ht as [Ht|Ht].
        -- apply Hk. destruct k; simpl in *; congruence.
        -- by apply Hnin.
Qed.

(** ** [add_resource]: first failing check, or the registration *)

Lemma add_resource_unfold self v n a tys :
  add_resource self v n a tys =
  ((if is_None v then raise ValueError else ret tt) ;;;
   (if negb (resource_name_re_fullmatch n) then raise ValueError else ret tt) ;;;
   x <- read self ;;
   (if truthy a && getattr_static_is_not_None x (default "" a)
    then raise ResourceConflict else ret tt) ;;;
   for_each (effective_types v tys) (conflict_check _resources self n) ;;;
   store_under self n (new_resource v n a tys) (effective_types v tys) ;;;
   when (truthy a) (setattr self (default "" a) v) ;;;
   resource_added_dispatch self (new_resource v n a tys) ;;;
   ret (new_resource v n a tys)).
Proof. reflexivity. Qed.

Lemma add_resource_raises self v n a tys s e :
  add_resource_error (ctx s self) v n a tys = Some e ->
  add_resource self v n a tys s = (inl e, s).
Proof.
  rewrite add_resource_unfold. unfold add_resource_error, bind.
  destruct (is_None v); simpl; [by intros [= <-]|].
  destruct (resource_name_re_fullmatch n); simpl; [|by intros [= <-]].
  destruct (truthy a && _); simpl; [by intros [= <-]|].
  rewrite conflict_check_loop.
  destruct (existsb _ _); [by intros [= <-]|done].
Qed.

Lemma add_resource_returns self v n a tys s :
  add_resource_error (ctx s self) v n a tys = None ->
  exists s',
    add_resource self v n a tys s = (inr (new_resource v n a tys), s') /\
    resource_added_to self (new_resource v n a tys) s s'.
Proof.
  rewrite add_resource_unfold. unfold add_resource_error, bind.
  destruct (is_None v); simpl; [done|].
  destruct (resource_name_re_fullmatch n); simpl; [|done].
  destruct (truthy a && _); simpl; [done|].
  rewrite conflict_check_loop.
  destruct (existsb _ _); [done|]. intros _.
  destruct (store_under_spec self n (new_resource v n a tys)
              (effective_types v tys) s) as (s1 & -> & He & Hd & Hs & Hr).
  destruct Hs.
  unfold when, setattr, update, resource_added_dispatch, tell, ret.
  destruct (truthy a) eqn:Ha.
  - eexists; split; [reflexivity|].
    constructor; rewrite ?ctx_emit, ?ctx_set_ctx_eq; try done.
    + simpl. by rewrite He.
    + intros d Hne. rewrite ctx_emit, ctx_set_ctx_ne by done. by apply Hd.
    + simpl. rewrite Ha. congruence.
  - eexists; split; [reflexivity|].
    constructor; rewrite ?ctx_emit; try done.
    + simpl. by rewrite He.
    + simpl. by rewrite Ha.
Qed.

Lemma add_resource_cases self v n a tys s :
  match add_resource_error (ctx s self) v n a tys with
  | Some e => add_resource self v n a tys s = (inl e, s)
  | None =>
      exists s',
        add_resource self v n a tys s = (inr (new_resource v n a tys), s') /\
        resource_added_to self (new_resource v n a tys) s s'
  end.
Proof.
  destruct (add_resource_error _ _ _ _ _) eqn:E.
  - by apply add_resource_raises.
  - by apply add_resource_returns.
Qed.

(** ** [add_resource_factory]: first failing check, or the registration *)

Lemma store_factory_under_spec self name r tys s :
  exists s',
    store_factory_under self name r tys s = (inr tt, s') /\
    effects s' = effects s /\
    (forall d, d <> self -> ctx s' d = ctx s d) /\
    same_but_factories (ctx s self) (ctx s' self) /\
    (forall k, _resource_factories (ctx s' self) !! k =
               if bool_decide (k.2 = name /\ k.1 ∈ tys) then Some r
               else _resource_factories (ctx s self) !! k).
Proof.
  revert s. induction tys as [|t tys IH]; intros s.
  - exists s. repeat split; try done. intros k.
    rewrite bool_decide_eq_false_2; [done|]. intros [_ H]. by apply elem_of_nil in H.
  - unfold store_factory_under in *. simpl. unfold bind, update at 1.
    set (s1 := set_ctx self _ s).
    destruct (IH s1) as (s' & -> & He & Hd & Hs & Hr).
    exists s'. split; [done|]. split; [done|]. split.
    { intros d Hne. rewrite Hd by done. subst s1. by rewrite ctx_set_ctx_ne. }
    subst s1. rewrite ctx_set_ctx_eq in Hs, Hr. split.
    { destruct Hs; constructor; simpl in *; congruence. }
    intros k. rewrite Hr. simpl.
    destruct (decide (k.2 = name /\ k.1 ∈ tys)) as [Hin|Hnin].
    + rewrite !bool_decide_eq_true_2; [done| |done].
      destruct Hin; split; [done|]. by apply elem_of_cons; right.
    + rewrite (bool_decide_eq_false_2 _ Hnin).
      destruct (decide (k = (t, name))) as [->|Hk].
      * rewrite lookup_insert_eq. rewrite bool_decide_eq_true_2; [done|].
        simpl. split; [done|]. by apply elem_of_cons; left.
      * rewrite lookup_insert_ne by done.
        rewrite bool_decide_eq_false_2; [done|].
        intros [Hn Ht]. apply elem_of_cons in Ht as [Ht|Ht].
        -- apply Hk. destruct k; simpl in *; congruence.
        -- by apply Hnin.
Qed.

Lemma add_resource_factory_unfold self f tys n a :
  add_resource_factory self f tys n a =
  ((if is_callable f then ret tt else raise TypeError) ;;;
   (if negb (resource_name_re_fullmatch n) then raise ValueError else ret tt) ;;;
   (if is_coroutine_function f then raise TypeError else ret tt) ;;;
   (if bool_decide (tys = []) then raise ValueError else ret tt) ;;;
   x <- read self ;;
   (if factory_attr_taken x a then raise ResourceConflict else ret tt) ;;;
   for_each tys (conflict_check _resource_factories self n) ;;;
   store_factory_under self n (new_factory f tys n a) tys ;;;
   when (truthy a)
     (update self (fun x =>
        with_factories_by_context_attr
          (<[default "" a := new_factory f tys n a]>
             (_resource_factories_by_context_attr x)) x)) ;;;
   resource_added_dispatch self (new_factory f tys n a) ;;;
   ret (new_factory f tys n a)).
Proof. destruct f as [| |fid [] call], tys; reflexivity. Qed.

Lemma add_resource_factory_cases self f tys n a s :
  match add_resource_factory_error (ctx s self) f tys n a with
  | Some e => add_resource_factory self f tys n a s = (inl e, s)
  | None =>
      exists s',
        add_resource_factory self f tys n a s = (inr (new_factory f tys n a), s') /\
        factory_added_to self (new_factory f tys n a) s s'
  end.
Proof.
  rewrite add_resource_factory_unfold.
  unfold add_resource_factory_error, bind.
  destruct (is_callable f); simpl; [|done].
  destruct (resource_name_re_fullmatch n); simpl; [|done].
  destruct (is_coroutine_function f); simpl; [done|].
  destruct (bool_decide (tys = [])); simpl; [done|].
  destruct (factory_attr_taken _ _); simpl; [done|].
  rewrite conflict_check_loop.
  destruct (existsb _ _); [done|].
  destruct (store_factory_under_spec self n (new_factory f tys n a) tys s)
    as (s1 & -> & He & Hd & Hs & Hr).
  destruct Hs.
  unfold when, update, resource_added_dispatch, tell, ret.
  destruct (truthy a) eqn:Ha.
  - eexists; split; [reflexivity|].
    constructor; rewrite ?ctx_emit, ?ctx_set_ctx_eq; try done.
    + simpl. by rewrite He.
    + intros d Hne. rewrite ctx_emit, ctx_set_ctx_ne by done. by apply Hd.
    + simpl. rewrite Ha. congruence.
  - eexists; split; [reflexivity|].
    constructor; rewrite ?ctx_emit; try done.
    + simpl. by rewrite He.
    + simpl. by rewrite Ha.
Qed.

(** ** Failure of [add_resource] changes nothing *)

(** C10: [add_resource] is atomic on failure.  When it raises, whatever
    the reason ([value] is [None], an ill-formed name, a context
    attribute that exists already, a (type, name) pair that exists
    already under any of the requested types), the store is the one
    before the call: no entry was added under any type, no attribute was
    bound and no [resource_added] event was dispatched; and these are the
    only reasons for which it raises. *)
Theorem add_resource_atomic_on_failure self value name context_attr types s e s' :
  add_resource self value name context_attr types s = (inl e, s') ->
  s' = s /\ add_resource_exception e /\
  add_resource_error (ctx s self) value name context_attr types = Some e.
Proof.
  intros H.
  pose proof (add_resource_cases self value name context_attr types s) as Hc.
  destruct (add_resource_error _ _ _ _ _) as [e0|] eqn:E.
  - rewrite Hc in H. injection H as <- <-. split; [done|]. split; [|done].
    unfold add_resource_error, add_resource_exception in *.
    repeat match type of E with
           | (if ?b then _ else _) = _ => destruct b
           end; naive_solver.
  - destruct Hc as (s1 & Hc & _). congruence.
Qed.

Lemma add_resource_atomic_on_failure_witness :
  add_resource 0 (PyObj "int" 2) "default" (Some "y") ["int"; "object"] example_store
  = (inl ResourceConflict, example_store) /\
  (example_store = example_store /\ add_resource_exception ResourceConflict /\
   add_resource_error (ctx example_store 0) (PyObj "int" 2) "default" (Some "y")
     ["int"; "object"] = Some ResourceConflict).
Proof.
  assert (H : add_resource 0 (PyObj "int" 2) "default" (Some "y") ["int"; "object"]
                example_store = (inl ResourceConflict, example_store))
    by (evaluate).
  split; [exact H|].
  exact (add_resource_atomic_on_failure _ _ _ _ _ _ _ _ H).
Defined.

(** ** Adding to a closed context *)

(** C3, evaluated on the code: on a context that [close] has closed,
    [add_resource] and [add_resource_factory] do not raise; the resource
    and the factory are registered.  ([_check_closed] is called by
    [close], [__enter__] and [__aenter__] only.) *)
Theorem add_on_closed_context_is_accepted :
  _closed (ctx closed_store 0) = true /\
  (exists r s',
     add_resource 0 (PyObj "str" 1) "default" None [] closed_store = (inr r, s') /\
     _resources (ctx s' 0) !! ("str", "default") = Some r) /\
  (exists r s',
     add_resource_factory 0 (make_object "str") ["str"] "default" None closed_store
     = (inr r, s') /\
     _resource_factories (ctx s' 0) !! ("str", "default") = Some r).
Proof.
  split; [reflexivity|]. split.
  - pose proof (add_resource_cases 0 (PyObj "str" 1) "default" None [] closed_store) as H.
    change (add_resource_error _ _ _ _ _) with (@None exn) in H.
    destruct H as (s' & H & Hs). eexists _, s'. split; [exact H|].
    rewrite (rat_resources _ _ _ _ Hs). reflexivity.
  - pose proof (add_resource_factory_cases 0 (make_object "str") ["str"] "default"
                  None closed_store) as H.
    change (add_resource_factory_error _ _ _ _ _) with (@None exn) in H.
    destruct H as (s' & H & Hs). eexists _, s'. split; [exact H|].
    rewrite (fat_factories _ _ _ _ Hs). reflexivity.
Qed.

(** ** Conflicts on one context, shadowing in a child *)

Lemma get_resource_direct s c T n r :
  _resources (ctx s c) !! (T, n) = Some r ->
  get_resource c T n s = (inr (value_or_factory r), s).
Proof. intros H. unfold get_resource, bind, read. by rewrite H. Qed.

(** C7: when the context [c] holds a resource registered directly under
    [(T, n)], a second [add_resource] on [c] of a value (not [None]) under
    the same pair raises [ResourceConflict]; on a child of [c] that has
    nothing of its own under the requested pairs (and whose attribute, if
    one is asked for, is free) the same [add_resource] returns, the
    resource of [c] stays, and the lookups of the child give the child's
    value while those of [c] give the one of [c]. *)
Theorem conflict_on_same_context_shadowing_in_child
    s c child T n r0 v a tys :
  _resources (ctx s c) !! (T, n) = Some r0 ->
  resource_name_re_fullmatch n = true ->
  is_None v = false ->
  T ∈ effective_types v tys ->
  _parent (ctx s child) = Some c ->
  (forall t, t ∈ effective_types v tys -> _resources (ctx s child) !! (t, n) = None) ->
  truthy a && getattr_static_is_not_None (ctx s child) (default "" a) = false ->
  add_resource c v n a tys s = (inl ResourceConflict, s) /\
  exists r s',
    add_resource child v n a tys s = (inr r, s') /\
    value_or_factory r = v /\
    _resources (ctx s' child) !! (T, n) = Some r /\
    _resources (ctx s' c) !! (T, n) = Some r0 /\
    get_resource child T n s' = (inr v, s') /\
    get_resource c T n s' = (inr (value_or_factory r0), s').
Proof.
  intros Hr0 Hn Hv HT Hp Hfree Hattr. split.
  - apply add_resource_raises. unfold add_resource_error.
    rewrite Hv, Hn. simpl.
    destruct (truthy a && getattr_static_is_not_None (ctx s c) _); [done|].
    destruct (existsb _ _) eqn:E; [done|].
    assert (existsb (fun t => bool_decide (is_Some (_resources (ctx s c) !! (t, n))))
              (effective_types v tys) = true) as E'; [|congruence].
    apply existsb_exists. exists T. split; [by apply list_elem_of_In|].
    apply bool_decide_eq_true_2. by rewrite Hr0.
  - assert (child <> c) as Hne.
    { intros ->. specialize (Hfree T HT). congruence. }
    destruct (add_resource_returns child v n a tys s) as (s' & Hadd & Hs).
    { unfold add_resource_error. rewrite Hv, Hn, Hattr. simpl.
      destruct (existsb _ _) eqn:E; [|done].
      apply existsb_exists in E as (t & Ht & E).
      apply bool_decide_eq_true_1 in E.
      rewrite (Hfree t) in E; [by destruct E|by apply list_elem_of_In]. }
    exists (new_resource v n a tys), s'. split; [done|]. split; [done|].
    assert (_resources (ctx s' child) !! (T, n) = Some (new_resource v n a tys)) as Hc.
    { rewrite (rat_resources _ _ _ _ Hs). by rewrite bool_decide_eq_true_2. }
    assert (_resources (ctx s' c) !! (T, n) = Some r0) as Hc0.
    { by rewrite (rat_others _ _ _ _ Hs c). }
    split; [done|]. split; [done|]. split.
    + by rewrite (get_resource_direct _ _ _ _ _ Hc).
    + by rewrite (get_resource_direct _ _ _ _ _ Hc0).
Qed.

Lemma conflict_on_same_context_shadowing_in_child_witness :
  add_resource 0 (PyObj "str" 2) "default" None ["str"] example_store
  = (inl ResourceConflict, example_store) /\
  exists r s',
    add_resource 1 (PyObj "str" 2) "default" None ["str"] example_store = (inr r, s') /\
    value_or_factory r = PyObj "str" 2 /\
    _resources (ctx s' 1) !! ("str", "default") = Some r /\
    _resources (ctx s' 0) !! ("str", "default")
    = Some (new_resource (PyObj "str" 1) "default" (Some "x") ["str"; "object"]) /\
    get_resource 1 "str" "default" s' = (inr (PyObj "str" 2), s') /\
    get_resource 0 "str" "default" s'
    = (inr (value_or_factory
              (new_resource (PyObj "str" 1) "default" (Some "x") ["str"; "object"])), s').
Proof.
  apply (conflict_on_same_context_shadowing_in_child example_store 0 1 "str"
           "default" _ (PyObj "str" 2) None ["str"]).
  - reflexivity.
  - reflexivity.
  - reflexivity.
  - apply list_elem_of_singleton. reflexivity.
  - reflexivity.
  - intros t Ht. apply list_elem_of_singleton in Ht. subst t. reflexivity.
  - reflexivity.
Defined.

(** ** Context attributes *)

(** C9 as stated fails: a name bound as a factory alias on a context can
    still be bound as a literal attribute of the same context by
    [add_resource], which returns and sets the attribute. *)
Lemma factory_alias_rebound_as_attribute :
  bound_as_factory_alias factory_store 0 "svc" /\
  exists r s',
    add_resource 0 (PyObj "str" 1) "default" (Some "svc") [] factory_store
    = (inr r, s') /\
    attrs (ctx s' 0) !! "svc" = Some (PyObj "str" 1).
Proof.
  split.
  - unfold bound_as_factory_alias. vm_compute. eauto.
  - pose proof (add_resource_cases 0 (PyObj "str" 1) "default" (Some "svc") []
                  factory_store) as H.
    change (add_resource_error _ _ _ _ _) with (@None exn) in H.
    destruct H as (s' & H & Hs). eexists _, s'. split; [exact H|].
    rewrite (rat_attrs _ _ _ _ Hs). reflexivity.
Qed.

(** *** Bindings stay *)

Lemma keeps_bindings_refl s : keeps_bindings s s.
Proof. by intros c a. Qed.

Lemma keeps_bindings_trans s1 s2 s3 :
  keeps_bindings s1 s2 -> keeps_bindings s2 s3 -> keeps_bindings s1 s3.
Proof.
  intros H12 H23 c a. destruct (H12 c a) as [Ha Hb], (H23 c a) as [Ha' Hb'].
  split; eauto.
Qed.

Lemma keeps_bindings_same_tables s s' :
  (forall c, attrs (ctx s' c) = attrs (ctx s c) /\
             _resource_factories_by_context_attr (ctx s' c)
             = _resource_factories_by_context_attr (ctx s c)) ->
  keeps_bindings s s'.
Proof. intros H c a. destruct (H c) as [-> ->]. done. Qed.

Lemma truthy_Some a : truthy a = true -> a = Some (default "" a) /\ default "" a <> "".
Proof. destruct a as [[|]|]; simpl; try done. Qed.

Lemma add_resource_keeps_bindings self v n a tys s :
  keeps_bindings s (snd (add_resource self v n a tys s)).
Proof.
  pose proof (add_resource_cases self v n a tys s) as Hc.
  destruct (add_resource_error _ _ _ _ _) eqn:E.
  { rewrite Hc. apply keeps_bindings_refl. }
  destruct Hc as (s' & -> & Hs). simpl. intros c b.
  destruct (decide (c = self)) as [->|Hne];
    [|by rewrite (rat_others _ _ _ _ Hs c Hne)].
  rewrite (rat_by_attr _ _ _ _ Hs), (rat_attrs _ _ _ _ Hs). split; [|done].
  cbn [context_attr new_resource value_or_factory].
  destruct (truthy a) eqn:Ha; [|done]. intros v0 Hv0 Hn0.
  destruct (decide (default "" a = b)) as [Hab|Hab]; [|by rewrite lookup_insert_ne].
  unfold add_resource_error in E. rewrite Ha in E.
  unfold getattr_static_is_not_None in E. rewrite Hab, Hv0, Hn0 in E.
  simpl in E. by destruct (is_None v), (resource_name_re_fullmatch n).
Qed.

Lemma add_resource_factory_keeps_bindings self f tys n a s :
  keeps_bindings s (snd (add_resource_factory self f tys n a s)).
Proof.
  pose proof (add_resource_factory_cases self f tys n a s) as Hc.
  destruct (add_resource_factory_error _ _ _ _ _) eqn:E.
  { rewrite Hc. apply keeps_bindings_refl. }
  destruct Hc as (s' & -> & Hs). simpl. intros c b.
  destruct (decide (c = self)) as [->|Hne];
    [|by rewrite (fat_others _ _ _ _ Hs c Hne)].
  rewrite (fat_by_attr _ _ _ _ Hs), (fat_attrs _ _ _ _ Hs). split; [done|].
  cbn [context_attr new_factory].
  destruct (truthy a) eqn:Ha; [|done]. intros r0 Hr0.
  destruct (decide (default "" a = b)) as [Hab|Hab]; [|by rewrite lookup_insert_ne].
  apply truthy_Some in Ha as [Ha _].
  unfold add_resource_factory_error in E. rewrite Ha in E.
  unfold factory_attr_taken in E. rewrite Hab, Hr0 in E.
  rewrite (bool_decide_eq_true_2 (is_Some (Some r0))) in E by eauto.
  by destruct (is_callable f), (resource_name_re_fullmatch n),
       (is_coroutine_function f), (bool_decide (tys = [])).
Qed.

Lemma generate_value_keeps_bindings r c s :
  keeps_bindings s (snd (generate_value r c s)).
Proof.
  unfold generate_value, bind, call_with_context.
  destruct (is_factory r); simpl; [|apply keeps_bindings_refl].
  destruct (value_or_factory r) as [| |fid co call]; simpl;
    try apply keeps_bindings_refl.
  destruct (call c (length (effects s))) as [e|v]; simpl;
    [by apply keeps_bindings_same_tables|].
  pose proof (add_resource_keeps_bindings c v (name r) (context_attr r) (types r)
                (emit (FactoryCalled fid c) s)) as H.
  destruct (add_resource _ _ _ _ _ _) as [[e|r'] s']; exact H.
Qed.

Lemma get_resource_keeps_bindings self T n s :
  keeps_bindings s (snd (get_resource self T n s)).
Proof.
  unfold get_resource, bind, read.
  destruct (_resources (ctx s self) !! (T, n)); [apply keeps_bindings_refl|].
  destruct (next_in_chain _resource_factories _ _ _);
    [apply generate_value_keeps_bindings|].
  destruct (next_in_chain _resources _ _ _); apply keeps_bindings_refl.
Qed.

Lemma set_ctx_keeps_bindings c x s :
  attrs x = attrs (ctx s c) ->
  _resource_factories_by_context_attr x
  = _resource_factories_by_context_attr (ctx s c) ->
  keeps_bindings s (set_ctx c x s).
Proof.
  intros Ha Hb. apply keeps_bindings_same_tables. intros d.
  destruct (decide (d = c)) as [->|Hne].
  - by rewrite ctx_set_ctx_eq.
  - by rewrite ctx_set_ctx_ne.
Qed.

Lemma add_teardown_callback_keeps_bindings self cb pe s :
  keeps_bindings s (snd (add_teardown_callback self cb pe s)).
Proof.
  unfold add_teardown_callback, bind, read.
  destruct (_teardown_callbacks (ctx s self)); [|apply keeps_bindings_refl].
  by apply set_ctx_keeps_bindings.
Qed.

Lemma teardown_loop_contexts exception l : forall s,
  contexts (snd (for_each l (fun cb =>
    try_except_Exception
      (call_teardown (fst cb) (snd cb) exception)
      (log_teardown_error (fst cb))) s))
  = contexts s.
Proof.
  induction l as [|[cb pe] l IH]; intros s; [done|].
  simpl. unfold bind at 1.
  assert (contexts (snd (try_except_Exception (call_teardown cb pe exception)
                           (log_teardown_error cb) s)) = contexts s) as H.
  { unfold try_except_Exception, call_teardown, log_teardown_error, bind, tell,
      raise, ret. simpl.
    destruct (td_call cb _) as [e|[|[e|]]]; simpl; try done;
      destruct (isinstance_Exception e); simpl; try done; by destruct (td_name cb). }
  destruct (try_except_Exception _ _ s) as [[e|[]] s1]; simpl in *; [done|].
  by rewrite IH.
Qed.

Lemma close_keeps_bindings self exception s :
  keeps_bindings s (snd (close self exception s)).
Proof.
  unfold close, bind at 1, _check_closed, bind at 1, read at 1.
  destruct (_closed (ctx s self)); [apply keeps_bindings_refl|].
  unfold ret at 1. unfold bind at 1, update at 1. unfold bind at 1, read at 1.
  rewrite ctx_set_ctx_eq. cbn [_teardown_callbacks with_closed].
  destruct (_teardown_callbacks (ctx s self)) as [l|];
    [|by apply set_ctx_keeps_bindings].
  unfold bind at 1, update at 1.
  set (s1 := set_ctx self (with_closed true (ctx s self)) s).
  set (s2 := set_ctx self (with_teardown_callbacks None (ctx s1 self)) s1).
  apply (keeps_bindings_trans _ s1); [by apply set_ctx_keeps_bindings|].
  apply (keeps_bindings_trans _ s2); [by apply set_ctx_keeps_bindings|].
  apply keeps_bindings_same_tables. intros d.
  by rewrite (ctx_same_contexts _ s2) by apply teardown_loop_contexts.
Qed.

Lemma after_call_keeps_bindings s c : keeps_bindings s (after_call s c).
Proof.
  destruct c; simpl.
  - destruct (contexts s !! c) eqn:E; [apply keeps_bindings_refl|].
    intros d a. destruct (decide (d = c)) as [->|Hne].
    + unfold new_context. rewrite ctx_set_ctx_eq. unfold ctx. rewrite E. simpl.
      split; intros ?; by rewrite lookup_empty.
    + unfold new_context. by rewrite ctx_set_ctx_ne.
  - apply add_resource_keeps_bindings.
  - apply add_resource_factory_keeps_bindings.
  - apply get_resource_keeps_bindings.
  - apply add_teardown_callback_keeps_bindings.
  - apply close_keeps_bindings.
Qed.

Lemma after_calls_keeps_bindings calls : forall s,
  keeps_bindings s (after_calls s calls).
Proof.
  induction calls as [|c calls IH]; intros s; [apply keeps_bindings_refl|].
  simpl. eapply keeps_bindings_trans; [apply after_call_keeps_bindings|apply IH].
Qed.

(** C9, amended: a name bound as a literal attribute by [add_resource]
    cannot be bound again by [add_resource], and a name bound as a factory
    alias by [add_resource_factory] cannot be bound again by
    [add_resource_factory], whatever calls were made on the contexts in
    between: the later call raises [ResourceConflict] and leaves the store
    as it is, and the binding is the original one.  Each operation, when
    it returns, binds the name it was given. *)
Theorem context_attr_not_rebound_by_same_operation s c a calls :
  a <> "" ->
  (forall v n tys r s0,
     add_resource c v n (Some a) tys s0 = (inr r, s) ->
     bound_as_attribute s c a) /\
  (forall f tys n r s0,
     add_resource_factory c f tys n (Some a) s0 = (inr r, s) ->
     bound_as_factory_alias s c a) /\
  keeps_bindings s (after_calls s calls) /\
  (bound_as_attribute s c a ->
   forall v n tys,
     is_None v = false -> resource_name_re_fullmatch n = true ->
     add_resource c v n (Some a) tys (after_calls s calls)
     = (inl ResourceConflict, after_calls s calls)) /\
  (bound_as_factory_alias s c a ->
   forall f tys n,
     is_callable f = true -> is_coroutine_function f = false ->
     tys <> [] -> resource_name_re_fullmatch n = true ->
     add_resource_factory c f tys n (Some a) (after_calls s calls)
     = (inl ResourceConflict, after_calls s calls)).
Proof.
  intros Ha.
  assert (truthy (Some a) = true) as Ht by (destruct a; [done|reflexivity]).
  pose proof (after_calls_keeps_bindings calls s) as Hkeep.
  split; [|split; [|split; [done|split]]].
  - intros v n tys r s0 H.
    pose proof (add_resource_cases c v n (Some a) tys s0) as Hc.
    destruct (add_resource_error _ _ _ _ _) eqn:E; [congruence|].
    destruct Hc as (s1 & Hc & Hs). rewrite Hc in H. injection H as <- <-.
    exists v. rewrite (rat_attrs _ _ _ _ Hs).
    cbn [context_attr new_resource value_or_factory]. rewrite Ht.
    cbn [default from_option id]. rewrite lookup_insert_eq. split; [done|].
    unfold add_resource_error in E. by destruct (is_None v).
  - intros f tys n r s0 H.
    pose proof (add_resource_factory_cases c f tys n (Some a) s0) as Hc.
    destruct (add_resource_factory_error _ _ _ _ _) eqn:E; [congruence|].
    destruct Hc as (s1 & Hc & Hs). rewrite Hc in H. injection H as <- <-.
    unfold bound_as_factory_alias. rewrite (fat_by_attr _ _ _ _ Hs).
    cbn [context_attr new_factory]. rewrite Ht.
    cbn [default from_option id]. by rewrite lookup_insert_eq.
  - intros (v0 & Hv0 & Hn0) v n tys Hv Hn.
    apply (proj1 (Hkeep c a)) in Hv0; [|done].
    apply add_resource_raises. unfold add_resource_error.
    rewrite Hv, Hn, Ht. simpl. unfold getattr_static_is_not_None.
    by rewrite Hv0, Hn0.
  - intros [r0 Hr0] f tys n Hf Hco Htys Hn.
    apply (proj2 (Hkeep c a)) in Hr0.
    pose proof (add_resource_factory_cases c f tys n (Some a) (after_calls s calls))
      as H.
    unfold add_resource_factory_error in H. rewrite Hf, Hn, Hco in H. simpl in H.
    rewrite bool_decide_eq_false_2 in H by done.
    rewrite bool_decide_eq_true_2 in H by (by rewrite Hr0). exact H.
Qed.

Lemma context_attr_not_rebound_by_same_operation_witness :
  let later_example :=
    after_calls example_store
      [NewContext 2 (Some 1); AddResource 2 (PyObj "int" 3) "n" (Some "x") [];
       GetResource 2 "str" "default"; Close 2 None] in
  let later_factory :=
    after_calls factory_store
      [GetResource 1 "str" "default"; AddResource 0 (PyObj "int" 3) "n" None []] in
  add_resource 0 (PyObj "int" 2) "other" (Some "x") ["int"] later_example
  = (inl ResourceConflict, later_example) /\
  add_resource_factory 0 (make_object "int") ["int"] "other" (Some "svc") later_factory
  = (inl ResourceConflict, later_factory).
Proof.
  intros later_example later_factory. split.
  - refine (proj1 (proj2 (proj2 (proj2
              (context_attr_not_rebound_by_same_operation example_store 0 "x" _ _))))
              _ (PyObj "int" 2) "other" ["int"] _ _).
    + discriminate.
    + exists (PyObj "str" 1). split; evaluate.
    + reflexivity.
    + reflexivity.
  - refine (proj2 (proj2 (proj2 (proj2
              (context_attr_not_rebound_by_same_operation factory_store 0 "svc" _ _))))
              _ (make_object "int") ["int"] "other" _ _ _ _).
    + discriminate.
    + unfold bound_as_factory_alias. vm_compute. eauto.
    + reflexivity.
    + reflexivity.
    + discriminate.
    + reflexivity.
Defined.

(** ** The context chain and the three tiers of [get_resource] *)

Lemma chain_from_walk s :
  parents_older s ->
  forall fuel c, c < fuel ->
    chain_from fuel s c !! 0 = Some c /\
    forall i d, chain_from fuel s c !! i = Some d ->
                chain_from fuel s c !! S i = _parent (ctx s d).
Proof.
  intros Hwf. induction fuel as [|fuel IH]; intros c Hc; [lia|].
  split; [done|]. intros i d. simpl.
  destruct (_parent (ctx s c)) as [p|] eqn:Hp.
  - assert (p < fuel) as Hpf by (specialize (Hwf c p Hp); lia).
    destruct (IH p Hpf) as [H0 HS].
    destruct i as [|i]; simpl.
    + intros [= <-]. by rewrite Hp.
    + apply HS.
  - destruct i as [|i]; simpl; [|done]. intros [= <-]. by rewrite Hp.
Qed.

(** In a store whose contexts are younger than their parents,
    [context_chain] is the walk of the Python loop: it starts at [self],
    each element is followed by its parent, and it ends at a root. *)
Lemma context_chain_walk s c :
  parents_older s ->
  context_chain s c !! 0 = Some c /\
  forall i d, context_chain s c !! i = Some d ->
              context_chain s c !! S i = _parent (ctx s d).
Proof. intros H. apply chain_from_walk; [done|lia]. Qed.

(** The chain only depends on the parents. *)
Lemma chain_from_ext s s' :
  (forall d, _parent (ctx s' d) = _parent (ctx s d)) ->
  forall fuel c, chain_from fuel s' c = chain_from fuel s c.
Proof.
  intros H. induction fuel as [|fuel IH]; intros c; simpl; [done|].
  rewrite H. destruct (_parent (ctx s c)); [by rewrite IH|done].
Qed.

Lemma next_in_chain_Some table s chain key r :
  next_in_chain table s chain key = Some r <->
  exists d, nearest table s chain key d r.
Proof.
  split.
  - induction chain as [|x chain IH]; simpl; [done|].
    destruct (table (ctx s x) !! key) as [r'|] eqn:E.
    + intros [= ->]. exists x, 0. repeat split; try done. intros; lia.
    + intros H. destruct (IH H) as (d & i & Hi & Hd & Hlt).
      exists d, (S i). repeat split; try done.
      intros [|j] d' Hj; simpl; [by intros [= <-]|].
      apply Hlt. lia.
  - intros (d & i & Hi & Hd & Hlt). revert chain Hi Hlt.
    induction i as [|i IH]; intros [|x chain]; simpl; try done.
    + intros [= ->] _. by rewrite Hd.
    + intros Hi Hlt. rewrite (Hlt 0 x) by (done || lia).
      apply IH; [done|]. intros j d' Hj. apply (Hlt (S j)). lia.
Qed.

Lemma next_in_chain_None table s chain key :
  next_in_chain table s chain key = None <-> none_in_chain table s chain key.
Proof.
  unfold none_in_chain. induction chain as [|x chain IH]; simpl.
  - split; [|done]. intros _ d Hd. by apply elem_of_nil in Hd.
  - destruct (table (ctx s x) !! key) as [r'|] eqn:E.
    + split; [done|]. intros H. rewrite H in E; [done|]. by apply elem_of_cons; left.
    + rewrite IH. split.
      * intros H d Hd. apply elem_of_cons in Hd as [->|Hd]; [done|by apply H].
      * intros H d Hd. apply H. by apply elem_of_cons; right.
Qed.

Lemma get_resource_factory_tier s c T n d r :
  _resources (ctx s c) !! (T, n) = None ->
  nearest _resource_factories s (context_chain s c) (T, n) d r ->
  get_resource c T n s = generate_value r c s.
Proof.
  intros H0 Hf. unfold get_resource, bind, read. rewrite H0.
  assert (next_in_chain _resource_factories s (context_chain s c) (T, n) = Some r)
    as -> by (apply next_in_chain_Some; eauto).
  done.
Qed.

Lemma get_resource_resource_tier s c T n d r :
  _resources (ctx s c) !! (T, n) = None ->
  none_in_chain _resource_factories s (context_chain s c) (T, n) ->
  nearest _resources s (context_chain s c) (T, n) d r ->
  get_resource c T n s = (inr (value_or_factory r), s).
Proof.
  intros H0 Hf Hr. unfold get_resource, bind, read. rewrite H0.
  apply next_in_chain_None in Hf. rewrite Hf.
  assert (next_in_chain _resources s (context_chain s c) (T, n) = Some r)
    as -> by (apply next_in_chain_Some; eauto).
  done.
Qed.

Lemma get_resource_miss s c T n :
  _resources (ctx s c) !! (T, n) = None ->
  none_in_chain _resource_factories s (context_chain s c) (T, n) ->
  none_in_chain _resources s (context_chain s c) (T, n) ->
  get_resource c T n s = (inr PyNone, s).
Proof.
  intros H0 Hf Hr. unfold get_resource, bind, read. rewrite H0.
  apply next_in_chain_None in Hf, Hr. by rewrite Hf, Hr.
Qed.

(** What [generate_value] does with a factory: the callable is called
    with the requesting context, then its value is published on that
    context under the name, attribute and types of the factory, and
    returned. *)
Lemma generate_value_unfold r c s fid co call :
  is_factory r = true ->
  value_or_factory r = PyCallable fid co call ->
  generate_value r c s =
  match call c (length (effects s)) with
  | inl e => (inl e, emit (FactoryCalled fid c) s)
  | inr v =>
      match add_resource c v (name r) (context_attr r) (types r)
              (emit (FactoryCalled fid c) s) with
      | (inl e, s') => (inl e, s')
      | (inr _, s') => (inr v, s')
      end
  end.
Proof.
  intros Hf Hv. unfold generate_value, bind. rewrite Hf, Hv. simpl.
  destruct (call c (length (effects s))); [done|].
  by destruct (add_resource _ _ _ _ _ _) as [[?|?] ?].
Qed.



(** ** Factories: one generation per requesting context *)

Lemma resource_added_keeps_factories self r s s' :
  resource_added_to self r s s' ->
  forall x,
    _resource_factories (ctx s' x) = _resource_factories (ctx s x) /\
    _resource_factories_by_context_attr (ctx s' x)
    = _resource_factories_by_context_attr (ctx s x) /\
    _parent (ctx s' x) = _parent (ctx s x).
Proof.
  intros H x. destruct (decide (x = self)) as [->|Hne].
  - by destruct H.
  - by rewrite (rat_others _ _ _ _ H x Hne).
Qed.

Lemma nearest_ext table s s' chain key d r :
  (forall x, table (ctx s' x) = table (ctx s x)) ->
  nearest table s chain key d r -> nearest table s' chain key d r.
Proof.
  intros H (i & Hi & Hd & Hlt). exists i. rewrite H. repeat split; try done.
  intros j d' Hj Hd'. rewrite H. by apply (Hlt j).
Qed.



(** Two sibling contexts that request the resource of the same factory
    get two objects, one call of the callback each; asking again gives
    the object already made. *)
Lemma factory_values_are_per_context :
  exists s1 s2,
    get_resource 1 "str" "default" siblings_store = (inr (PyObj "str" 1), s1) /\
    get_resource 2 "str" "default" s1 = (inr (PyObj "str" 3), s2) /\
    get_resource 1 "str" "default" s2 = (inr (PyObj "str" 1), s2) /\
    get_resource 2 "str" "default" s2 = (inr (PyObj "str" 3), s2) /\
    effects s2
    = (effects siblings_store
       ++ [FactoryCalled 7 1;
           Dispatched 1 (new_resource (PyObj "str" 1) "default" None ["str"]);
           FactoryCalled 7 2;
           Dispatched 2 (new_resource (PyObj "str" 3) "default" None ["str"])])%list.
Proof.
  eexists _, _.
  split; [evaluate|].
  split; [evaluate|].
  split; [evaluate|].
  split; evaluate.
Qed.

(** ** [close] and the teardown callbacks *)







(** The trace of the run above: the callback registered last is called
    first, without argument, and awaited; then the first one is called
    with the exception and the [ValueError] it raises is logged. *)
Lemma close_trace_example :
  concat (map (teardown_effects (Some RuntimeError))
            (rev [(cb_failing, true); (cb_async, false)]))
  = [TeardownCalled 2 []; Awaited 2;
     TeardownCalled 3 [Some RuntimeError]; LoggedException 3 ValueError].
Proof. reflexivity. Qed.


(** ** [request_resource] *)

Lemma generate_value_not_None r c s v s' :
  generate_value r c s = (inr v, s') -> is_None v = false.
Proof.
  unfold generate_value, bind, call_with_context.
  destruct (is_factory r); simpl; [|done].
  destruct (value_or_factory r) as [| |fid co call]; simpl; try done.
  destruct (call c (length (effects s))) as [e|v0]; [done|].
  pose proof (add_resource_cases c v0 (name r) (context_attr r) (types r)
                (emit (FactoryCalled fid c) s)) as Hc.
  destruct (add_resource_error _ _ _ _ _) eqn:E.
  - rewrite Hc. done.
  - destruct Hc as (s1 & -> & _). intros [= <- <-].
    unfold add_resource_error in E. by destruct (is_None v0).
Qed.

Lemma get_resource_None_keeps_store self T n s s' :
  get_resource self T n s = (inr PyNone, s') -> s' = s.
Proof.
  unfold get_resource, bind, read.
  destruct (_resources (ctx s self) !! (T, n)); [by intros [= _ <-]|].
  destruct (next_in_chain _resource_factories _ _ _) as [r|].
  - intros H. by apply generate_value_not_None in H.
  - destruct (next_in_chain _resources _ _ _); [by intros [= _ <-]|by intros [= <-]].
Qed.






(** ** The start pass of the orchestrator *)




















(** ** [ComponentContext]: names and propagation

    The lemmas hold for every base class: [W] is its state,
    [Context_add_resource] and [Context_add_resource_factory] are its
    methods. *)

(** While [preparing], a resource is added to the context itself only,
    under the name [default] whatever name was given. *)
Lemma add_resource_while_preparing W Context_add_resource
    self o value name types description td (w : W) :
  Component.status o = Component.preparing ->
  Component.add_resource W Context_add_resource self o value name types
    description td w
  = Context_add_resource self value (Some "default") types description td w.
Proof.
  intros H. unfold Component.add_resource. rewrite H.
  by destruct (Context_add_resource _ _ _ _ _ _ _) as [[e|] w'],
       (Component._parent o).
Qed.

(** While [starting], a resource that the context accepted is added to
    the parent as well, by the method of the base class, under the given
    name or else the default resource name of the component. *)
Lemma add_resource_while_starting W Context_add_resource
    self o parent value name types description td (w w' : W) :
  Component.status o = Component.starting ->
  Component._parent o = Some parent ->
  Context_add_resource self value name types description td w = (None, w') ->
  Component.add_resource W Context_add_resource self o value name types
    description td w
  = Context_add_resource parent value
      (Some (Component.name_or name (Component._default_resource_name o)))
      types description td w'.
Proof.
  intros H Hp Hb. unfold Component.add_resource. by rewrite H, Hb, Hp.
Qed.

(** While [preparing], a factory is added to the context itself only,
    under the name [default]. *)
Lemma add_resource_factory_while_preparing W Context_add_resource_factory
    objs self o f name types description (w : W) :
  objs !! self = Some o ->
  Component.status o = Component.preparing ->
  Component.add_resource_factory W Context_add_resource_factory objs self f name
    types description w
  = Context_add_resource_factory self f (Some "default") types description w.
Proof.
  intros Ho H. unfold Component.add_resource_factory. simpl. rewrite Ho, H.
  by destruct (Context_add_resource_factory _ _ _ _ _ _) as [[e|] w'],
       (Component._parent o).
Qed.

(** C8, evaluated on the code with a base class that records its calls.
    In the status [starting], a resource added without a name reaches the
    parent under the default resource name of the component ([queue]), by
    one call of the base method.  A factory added without a name reaches
    the parent without a name: the default resource name is not used.
    And the factory is handed to the parent's own [add_resource_factory],
    so that from a [ComponentContext] whose parent is a [ComponentContext]
    it goes up two levels, where a resource goes up one. *)
Theorem factory_propagation_differs_from_resource :
  let v := PyObj "str" 1 in
  let f := make_object "str" in
  Component.add_resource _ Component.recording_add_resource 1 queue_context v
    None [] None None []
  = (None, [Component.AddResource 1 v None [];
            Component.AddResource 0 v (Some "queue") []]) /\
  Component.add_resource_factory _ Component.recording_add_resource_factory
    starting_contexts 1 f None (Some ["str"]) None []
  = (None, [Component.AddResourceFactory 1 f None (Some ["str"]);
            Component.AddResourceFactory 0 f None (Some ["str"])]) /\
  Component.add_resource _ Component.recording_add_resource 2 cache_context v
    (Some "x") [] None None []
  = (None, [Component.AddResource 2 v (Some "x") [];
            Component.AddResource 1 v (Some "x") []]) /\
  Component.add_resource_factory _ Component.recording_add_resource_factory
    starting_contexts 2 f (Some "x") (Some ["str"]) None []
  = (None, [Component.AddResourceFactory 2 f (Some "x") (Some ["str"]);
            Component.AddResourceFactory 1 f (Some "x") (Some ["str"]);
            Component.AddResourceFactory 0 f (Some "x") (Some ["str"])]).
Proof.
  intros v f.
  split; [reflexivity|]. split; [evaluate|].
  split; [reflexivity|]. evaluate.
Qed.

(** * Further properties of [asphalt/core/context.py] *)

(** ** What a call can do to the store *)

Lemma generate_value_cases r c s :
  (exists e s',
     generate_value r c s = (inl e, s') /\ contexts s' = contexts s /\
     (s' = s \/ exists fid, s' = emit (FactoryCalled fid c) s)) \/
  (exists fid co call v s',
     is_factory r = true /\
     value_or_factory r = PyCallable fid co call /\
     call c (length (effects s)) = inr v /\
     generate_value r c s = (inr v, s') /\
     add_resource_error (ctx s c) v (name r) (context_attr r) (types r) = None /\
     resource_added_to c (new_resource v (name r) (context_attr r) (types r))
       (emit (FactoryCalled fid c) s) s').
Proof.
  unfold generate_value, bind, call_with_context.
  destruct (is_factory r) eqn:Hf; simpl; [|solve [left; eauto 6]].
  destruct (value_or_factory r) as [| |fid co call] eqn:Hv; simpl;
    try solve [left; eauto 6].
  destruct (call c (length (effects s))) as [e|v] eqn:Hcall.
  { left. eexists _, _. split; [reflexivity|]. split; [reflexivity|]. eauto. }
  pose proof (add_resource_cases c v (name r) (context_attr r) (types r)
                (emit (FactoryCalled fid c) s)) as Hc.
  rewrite ctx_emit in Hc.
  destruct (add_resource_error _ _ _ _ _) eqn:E.
  - rewrite Hc. left. eexists _, _. split; [reflexivity|]. split; [reflexivity|].
    eauto.
  - destruct Hc as (s' & Hadd & Hs). rewrite Hadd. right.
    exists fid, co, call, v, s'. do 5 (split; [done|]). done.
Qed.

Lemma get_resource_cases self T n s :
  (exists v, get_resource self T n s = (inr v, s)) \/
  (exists e s',
     get_resource self T n s = (inl e, s') /\ contexts s' = contexts s /\
     (s' = s \/ exists fid, s' = emit (FactoryCalled fid self) s)) \/
  (exists d r fid co call v s',
     _resources (ctx s self) !! (T, n) = None /\
     nearest _resource_factories s (context_chain s self) (T, n) d r /\
     is_factory r = true /\
     value_or_factory r = PyCallable fid co call /\
     call self (length (effects s)) = inr v /\
     get_resource self T n s = (inr v, s') /\
     add_resource_error (ctx s self) v (name r) (context_attr r) (types r) = None /\
     resource_added_to self (new_resource v (name r) (context_attr r) (types r))
       (emit (FactoryCalled fid self) s) s').
Proof.
  unfold get_resource, bind, read.
  destruct (_resources (ctx s self) !! (T, n)) eqn:H0; [left; eauto|].
  destruct (next_in_chain _resource_factories s (context_chain s self) (T, n))
    as [r|] eqn:Hf.
  - apply next_in_chain_Some in Hf as (d & Hd).
    destruct (generate_value_cases r self s)
      as [(e & s' & -> & Hc)|(fid & co & call & v & s' & H1 & H2 & H3 & -> & H4 & H5)].
    + right; left. eauto.
    + right; right. exists d, r, fid, co, call, v, s'. do 7 (split; [done|]). done.
  - left. destruct (next_in_chain _resources _ _ _); eauto.
Qed.

(** [close] step by step. *)
Lemma close_unfold self exception s :
  let s1 := set_ctx self (with_closed true (ctx s self)) s in
  let s2 := set_ctx self (with_teardown_callbacks None (ctx s1 self)) s1 in
  close self exception s =
  if _closed (ctx s self) then (inl RuntimeError, s)
  else match _teardown_callbacks (ctx s self) with
       | Some l =>
           for_each (rev l) (fun cb =>
             try_except_Exception
               (call_teardown (fst cb) (snd cb) exception)
               (log_teardown_error (fst cb))) s2
       | None => (inl AttributeError, s1)
       end.
Proof.
  intros s1 s2. unfold close, bind at 1, _check_closed, bind at 1, read at 1.
  destruct (_closed (ctx s self)) eqn:Hc; [done|].
  unfold ret at 1. unfold bind at 1, update at 1. unfold bind at 1, read at 1.
  fold s1. subst s1. rewrite ctx_set_ctx_eq. cbn [_teardown_callbacks with_closed].
  destruct (_teardown_callbacks (ctx s self)) as [l|] eqn:Ht; [|done].
  reflexivity.
Qed.

(** The fields of the contexts after [close], whatever the callbacks
    do. *)
Lemma close_fields self exception s d :
  let s' := snd (close self exception s) in
  _parent (ctx s' d) = _parent (ctx s d) /\
  _resources (ctx s' d) = _resources (ctx s d) /\
  _resource_factories (ctx s' d) = _resource_factories (ctx s d) /\
  _resource_factories_by_context_attr (ctx s' d)
  = _resource_factories_by_context_attr (ctx s d) /\
  attrs (ctx s' d) = attrs (ctx s d) /\
  (d <> self \/ _closed (ctx s self) = true -> ctx s' d = ctx s d) /\
  (_closed (ctx s self) = false ->
   _closed (ctx s' self) = true /\ _teardown_callbacks (ctx s' self) = None).
Proof.
  intros s'. subst s'. rewrite close_unfold.
  destruct (_closed (ctx s self)) eqn:Hc.
  { simpl. do 6 (split; [done|]). done. }
  set (s1 := set_ctx self (with_closed true (ctx s self)) s).
  set (s2 := set_ctx self (with_teardown_callbacks None (ctx s1 self)) s1).
  assert (forall x, ctx s2 x = if decide (x = self)
                               then with_teardown_callbacks None
                                      (with_closed true (ctx s self))
                               else ctx s x) as H2.
  { intros x. subst s2 s1. destruct (decide (x = self)) as [->|Hne].
    - by rewrite !ctx_set_ctx_eq.
    - by rewrite !ctx_set_ctx_ne. }
  assert (forall x, ctx s1 x = if decide (x = self)
                               then with_closed true (ctx s self)
                               else ctx s x) as H1.
  { intros x. subst s1. destruct (decide (x = self)) as [->|Hne].
    - by rewrite !ctx_set_ctx_eq.
    - by rewrite !ctx_set_ctx_ne. }
  destruct (_teardown_callbacks (ctx s self)) as [l|] eqn:Ht.
  - assert (forall x, ctx (for_each (rev l) (fun cb =>
              try_except_Exception
                (call_teardown (fst cb) (snd cb) exception)
                (log_teardown_error (fst cb))) s2).2 x
            = ctx s2 x) as Hloop.
    { intros x. apply ctx_same_contexts. apply teardown_loop_contexts. }
    rewrite !Hloop, !H2.
    repeat case_decide; subst; simpl; try done;
      do 5 (split; [done|]); (split; [by intros [?|?]|done]).
  - cbn [snd]. rewrite !H1.
    repeat case_decide; subst; simpl; try done;
      do 5 (split; [done|]); (split; [by intros [?|?]|done]).
Qed.

Lemma add_resource_accepts x v n a tys :
  add_resource_error x v n a tys = None ->
  is_None v = false /\ resource_name_re_fullmatch n = true /\
  truthy a && getattr_static_is_not_None x (default "" a) = false /\
  forall t, t ∈ effective_types v tys -> _resources x !! (t, n) = None.
Proof.
  unfold add_resource_error.
  destruct (is_None v); [done|].
  destruct (resource_name_re_fullmatch n); [|done]. simpl.
  destruct (truthy a && _); [done|].
  destruct (existsb _ _) eqn:E; [done|]. intros _.
  do 3 (split; [done|]). intros t Ht.
  destruct (_resources x !! (t, n)) eqn:El; [|done].
  assert (existsb (fun t => bool_decide (is_Some (_resources x !! (t, n))))
            (effective_types v tys) = true) as E'; [|congruence].
  apply existsb_exists. exists t. split; [by apply list_elem_of_In|].
  apply bool_decide_eq_true_2. by rewrite El.
Qed.

Lemma add_resource_factory_accepts x f tys n a :
  add_resource_factory_error x f tys n a = None ->
  is_callable f = true /\ resource_name_re_fullmatch n = true /\
  is_coroutine_function f = false /\ tys <> [] /\
  factory_attr_taken x a = false /\
  forall t, t ∈ tys -> _resource_factories x !! (t, n) = None.
Proof.
  unfold add_resource_factory_error.
  destruct (is_callable f); [|done].
  destruct (resource_name_re_fullmatch n); [|done]. simpl.
  destruct (is_coroutine_function f); [done|].
  destruct (bool_decide (tys = [])) eqn:Et; [done|].
  destruct (factory_attr_taken x a); [done|].
  destruct (existsb _ _) eqn:E; [done|]. intros _.
  do 3 (split; [done|]). split; [by apply bool_decide_eq_false_1 in Et|].
  split; [done|]. intros t Ht.
  destruct (_resource_factories x !! (t, n)) eqn:El; [|done].
  assert (existsb (fun t => bool_decide (is_Some (_resource_factories x !! (t, n))))
            tys = true) as E'; [|congruence].
  apply existsb_exists. exists t. split; [by apply list_elem_of_In|].
  apply bool_decide_eq_true_2. by rewrite El.
Qed.

(** ** The invariant of the store *)

Lemma context_invariant_init parent : context_invariant (Context_init parent).
Proof.
  constructor.
  - intros T n r H. simpl in H. by rewrite lookup_empty in H.
  - intros T n r H. simpl in H. by rewrite lookup_empty in H.
  - intros a r H. simpl in H. by rewrite lookup_empty in H.
  - intros k r H. simpl in H. by rewrite lookup_empty in H.
  - intros a v H. simpl in H. by rewrite lookup_empty in H.
  - unfold closed_iff_deleted. simpl. split; intros H; discriminate H.
Qed.

Lemma store_invariant_same_contexts s s' :
  contexts s' = contexts s -> store_invariant s -> store_invariant s'.
Proof. intros H Hinv d. rewrite (ctx_same_contexts s' s) by done. apply Hinv. Qed.

Lemma resource_added_invariant self v n a tys s s' :
  store_invariant s ->
  add_resource_error (ctx s self) v n a tys = None ->
  resource_added_to self (new_resource v n a tys) s s' ->
  store_invariant s'.
Proof.
  intros Hinv E Hs d.
  destruct (decide (d = self)) as [->|Hne];
    [|rewrite (rat_others _ _ _ _ Hs d Hne); apply Hinv].
  apply add_resource_accepts in E as (Hv & Hn & Hattr & Hfree).
  destruct (Hinv self) as [Ir If Ia It Inn Ic]. destruct Hs.
  cbn [context_attr new_resource value_or_factory name types] in *.
  constructor.
  - intros T n' r. rewrite rat_resources0. simpl.
    destruct (bool_decide _) eqn:Eb; [|apply Ir].
    apply bool_decide_eq_true_1 in Eb as [-> HT]. intros [= <-]. by simpl.
  - intros T n' r. rewrite rat_factories0. apply If.
  - intros b r. rewrite rat_by_attr0, rat_factories0. apply Ia.
  - intros k r. rewrite rat_resources0, rat_attrs0.
    destruct (bool_decide _) eqn:Eb.
    + intros [= <-] Htr. simpl in *. rewrite Htr. by rewrite lookup_insert_eq.
    + intros Hr Htr. pose proof (It k r Hr Htr) as Hold.
      destruct (truthy a) eqn:Ha; [|done].
      rewrite lookup_insert_ne; [done|]. intros Heq.
      simpl in Hattr. unfold getattr_static_is_not_None in Hattr.
      rewrite Heq, Hold in Hattr. destruct k as [T' n'].
      destruct (Ir T' n' r Hr) as (_ & _ & _ & Hnn & _). by rewrite Hnn in Hattr.
  - intros b v0. rewrite rat_attrs0. destruct (truthy a); [|apply Inn].
    destruct (decide (default "" a = b)) as [->|Hb].
    + rewrite lookup_insert_eq. by intros [= <-].
    + rewrite lookup_insert_ne by done. apply Inn.
  - unfold closed_iff_deleted. by rewrite rat_teardown0, rat_closed0.
Qed.

Lemma factory_added_invariant self f tys n a s s' :
  store_invariant s ->
  add_resource_factory_error (ctx s self) f tys n a = None ->
  factory_added_to self (new_factory f tys n a) s s' ->
  store_invariant s'.
Proof.
  intros Hinv E Hs d.
  destruct (decide (d = self)) as [->|Hne];
    [|rewrite (fat_others _ _ _ _ Hs d Hne); apply Hinv].
  apply add_resource_factory_accepts in E as (Hf & Hn & Hco & Htys & Hattr & Hfree).
  destruct (Hinv self) as [Ir If Ia It Inn Ic]. destruct Hs.
  cbn [context_attr new_factory value_or_factory name types] in *.
  constructor.
  - intros T n' r. rewrite fat_resources0. apply Ir.
  - intros T n' r. rewrite fat_factories0. simpl.
    destruct (bool_decide _) eqn:Eb; [|apply If].
    apply bool_decide_eq_true_1 in Eb as [-> HT]. intros [= <-]. by simpl.
  - intros b r. rewrite fat_by_attr0.
    assert (forall r0, _resource_factories_by_context_attr (ctx s self) !! b = Some r0 ->
              context_attr r0 = Some b /\ b <> "" /\
              forall T, T ∈ types r0 ->
                _resource_factories (ctx s' self) !! (T, name r0) = Some r0) as Hold.
    { intros r0 Hr0. destruct (Ia b r0 Hr0) as (H1 & H2 & H3).
      do 2 (split; [done|]). intros T HT. rewrite fat_factories0. simpl.
      destruct (bool_decide _) eqn:Eb; [|by apply H3].
      apply bool_decide_eq_true_1 in Eb as [Hnm HT'].
      specialize (H3 T HT). rewrite Hnm, (Hfree T HT') in H3. done. }
    destruct (truthy a) eqn:Ha; [|apply Hold].
    destruct (decide (default "" a = b)) as [Hb|Hb];
      [|rewrite lookup_insert_ne by done; apply Hold].
    rewrite Hb, lookup_insert_eq. intros [= <-]. simpl.
    apply truthy_Some in Ha as [Ha Hne]. rewrite Hb in Ha, Hne.
    do 2 (split; [done|]). intros T HT. rewrite fat_factories0. simpl.
    by rewrite bool_decide_eq_true_2.
  - intros k r. rewrite fat_resources0, fat_attrs0. apply It.
  - intros b v0. rewrite fat_attrs0. apply Inn.
  - unfold closed_iff_deleted. by rewrite fat_teardown0, fat_closed0.
Qed.

Lemma add_resource_invariant self v n a tys s :
  store_invariant s -> store_invariant (snd (add_resource self v n a tys s)).
Proof.
  intros Hinv. pose proof (add_resource_cases self v n a tys s) as Hc.
  destruct (add_resource_error _ _ _ _ _) eqn:E; [by rewrite Hc|].
  destruct Hc as (s' & -> & Hs). by apply (resource_added_invariant self v n a tys s).
Qed.

Lemma add_resource_factory_invariant self f tys n a s :
  store_invariant s -> store_invariant (snd (add_resource_factory self f tys n a s)).
Proof.
  intros Hinv. pose proof (add_resource_factory_cases self f tys n a s) as Hc.
  destruct (add_resource_factory_error _ _ _ _ _) eqn:E; [by rewrite Hc|].
  destruct Hc as (s' & -> & Hs). by apply (factory_added_invariant self f tys n a s).
Qed.

Lemma get_resource_invariant self T n s :
  store_invariant s -> store_invariant (snd (get_resource self T n s)).
Proof.
  intros Hinv.
  destruct (get_resource_cases self T n s)
    as [[v ->]|[(e & s' & -> & Hc & _)
               |(d & r & fid & co & call & v & s' & _ & _ & _ & _ & _ & -> & E & Hs)]].
  - done.
  - by apply (store_invariant_same_contexts s).
  - by apply (resource_added_invariant self v (name r) (context_attr r) (types r)
                (emit (FactoryCalled fid self) s)).
Qed.

Lemma add_teardown_callback_invariant self cb pe s :
  store_invariant s -> store_invariant (snd (add_teardown_callback self cb pe s)).
Proof.
  intros Hinv. unfold add_teardown_callback, bind, read.
  destruct (_teardown_callbacks (ctx s self)) as [l|] eqn:Ht; [|done].
  intros d. simpl. destruct (decide (d = self)) as [->|Hne];
    [|rewrite ctx_set_ctx_ne by done; apply Hinv].
  rewrite ctx_set_ctx_eq. destruct (Hinv self) as [Ir If Ia It Inn Ic].
  constructor; try done.
  unfold closed_iff_deleted in *. simpl. rewrite <- Ic, Ht. split; discriminate.
Qed.

Lemma close_invariant self exception s :
  store_invariant s -> store_invariant (snd (close self exception s)).
Proof.
  intros Hinv d.
  destruct (close_fields self exception s d) as (Hp & Hr & Hf & Hb & Ha & Hsame & Hcl).
  destruct (Hinv d) as [Ir If Ia It Inn Ic].
  destruct (decide (d = self)) as [->|Hne]; [|rewrite Hsame by eauto; apply Hinv].
  destruct (_closed (ctx s self)) eqn:Hc; [rewrite Hsame by eauto; apply Hinv|].
  destruct (Hcl eq_refl) as [Hc' Ht'].
  constructor.
  - intros T n r. rewrite Hr. apply Ir.
  - intros T n r. rewrite Hf. apply If.
  - intros b r. rewrite Hb, Hf. apply Ia.
  - intros k r. rewrite Hr, Ha. apply It.
  - intros b v. rewrite Ha. apply Inn.
  - unfold closed_iff_deleted. by rewrite Hc', Ht'.
Qed.

Lemma after_call_invariant s c :
  store_invariant s -> store_invariant (after_call s c).
Proof.
  intros Hinv. destruct c; simpl.
  - destruct (contexts s !! c) eqn:E; [done|]. intros d.
    unfold new_context. destruct (decide (d = c)) as [->|Hne].
    + rewrite ctx_set_ctx_eq. apply context_invariant_init.
    + rewrite ctx_set_ctx_ne by done. apply Hinv.
  - by apply add_resource_invariant.
  - by apply add_resource_factory_invariant.
  - by apply get_resource_invariant.
  - by apply add_teardown_callback_invariant.
  - by apply close_invariant.
Qed.

Lemma after_calls_invariant calls : forall s,
  store_invariant s -> store_invariant (after_calls s calls).
Proof.
  induction calls as [|c calls IH]; intros s H; [done|].
  simpl. apply IH. by apply after_call_invariant.
Qed.

Lemma store_invariant_empty : store_invariant empty_store.
Proof. intros d. apply context_invariant_init. Qed.

(** ** Registrations are permanent *)

Lemma keeps_registrations_refl s : keeps_registrations s s.
Proof. intros d. by repeat split. Qed.

Lemma keeps_registrations_trans s1 s2 s3 :
  keeps_registrations s1 s2 -> keeps_registrations s2 s3 ->
  keeps_registrations s1 s3.
Proof.
  intros H12 H23 d.
  destruct (H12 d) as (A1 & B1 & C1 & D1), (H23 d) as (A2 & B2 & C2 & D2).
  split; [|split; [|split]]; eauto.
Qed.

Lemma keeps_registrations_same_contexts s s' :
  contexts s' = contexts s -> keeps_registrations s s'.
Proof.
  intros H d. rewrite (ctx_same_contexts s' s) by done. by repeat split.
Qed.

Lemma resource_added_keeps_registrations self v n a tys s s' :
  add_resource_error (ctx s self) v n a tys = None ->
  resource_added_to self (new_resource v n a tys) s s' ->
  keeps_registrations s s'.
Proof.
  intros E Hs d.
  destruct (decide (d = self)) as [->|Hne];
    [|rewrite (rat_others _ _ _ _ Hs d Hne); by repeat split].
  apply add_resource_accepts in E as (_ & _ & _ & Hfree). destruct Hs.
  split; [|split; [|split]].
  - intros k r Hk. rewrite rat_resources0.
    destruct (bool_decide _) eqn:Eb; [|done].
    apply bool_decide_eq_true_1 in Eb as [Hn HT]. simpl in Hn, HT.
    destruct k as [T n']. simpl in *. subst n'. by rewrite (Hfree T HT) in Hk.
  - intros k r. by rewrite rat_factories0.
  - by rewrite rat_closed0.
  - intros p. by rewrite rat_parent0.
Qed.

Lemma factory_added_keeps_registrations self f tys n a s s' :
  add_resource_factory_error (ctx s self) f tys n a = None ->
  factory_added_to self (new_factory f tys n a) s s' ->
  keeps_registrations s s'.
Proof.
  intros E Hs d.
  destruct (decide (d = self)) as [->|Hne];
    [|rewrite (fat_others _ _ _ _ Hs d Hne); by repeat split].
  apply add_resource_factory_accepts in E as (_ & _ & _ & _ & _ & Hfree). destruct Hs.
  split; [|split; [|split]].
  - intros k r. by rewrite fat_resources0.
  - intros k r Hk. rewrite fat_factories0.
    destruct (bool_decide _) eqn:Eb; [|done].
    apply bool_decide_eq_true_1 in Eb as [Hn HT]. simpl in Hn, HT.
    destruct k as [T n']. simpl in *. subst n'. by rewrite (Hfree T HT) in Hk.
  - by rewrite fat_closed0.
  - intros p. by rewrite fat_parent0.
Qed.

Lemma after_call_keeps_registrations s c : keeps_registrations s (after_call s c).
Proof.
  destruct c as [c parent|self v n a tys|self f tys n a|self T n|self cb pe|self e];
    simpl.
  - destruct (contexts s !! c) eqn:E; [apply keeps_registrations_refl|].
    intros d. unfold new_context. destruct (decide (d = c)) as [->|Hne];
      [|rewrite ctx_set_ctx_ne by done; by repeat split].
    rewrite ctx_set_ctx_eq. unfold ctx. rewrite E. simpl.
    split; [|split; [|split]]; try done; intros k r H; by rewrite lookup_empty in H.
  - pose proof (add_resource_cases self v n a tys s) as Hc.
    destruct (add_resource_error _ _ _ _ _) eqn:E;
      [rewrite Hc; apply keeps_registrations_refl|].
    destruct Hc as (s' & -> & Hs).
    by apply (resource_added_keeps_registrations self v n a tys).
  - pose proof (add_resource_factory_cases self f tys n a s) as Hc.
    destruct (add_resource_factory_error _ _ _ _ _) eqn:E;
      [rewrite Hc; apply keeps_registrations_refl|].
    destruct Hc as (s' & -> & Hs).
    by apply (factory_added_keeps_registrations self f tys n a).
  - destruct (get_resource_cases self T n s)
      as [[v ->]|[(e & s' & -> & Hc & _)
                 |(d & r & fid & co & call & v & s' & _ & _ & _ & _ & _ & -> & E & Hs)]].
    + apply keeps_registrations_refl.
    + by apply keeps_registrations_same_contexts.
    + by apply (resource_added_keeps_registrations self v (name r) (context_attr r)
                  (types r) (emit (FactoryCalled fid self) s)).
  - unfold add_teardown_callback, bind, read.
    destruct (_teardown_callbacks (ctx s self)) as [l|];
      [|apply keeps_registrations_refl].
    intros d. simpl. destruct (decide (d = self)) as [->|Hne];
      [rewrite ctx_set_ctx_eq|rewrite ctx_set_ctx_ne by done]; by repeat split.
  - intros d.
    destruct (close_fields self e s d) as (Hp & Hr & Hf & _ & _ & Hsame & Hcl).
    split; [|split; [|split]].
    + intros k r. by rewrite Hr.
    + intros k r. by rewrite Hf.
    + intros Hc. destruct (decide (d = self)) as [->|Hne].
      * rewrite Hsame; [done|by right].
      * rewrite Hsame; [done|by left].
    + intros p. by rewrite Hp.
Qed.

Lemma after_calls_keeps_registrations calls : forall s,
  keeps_registrations s (after_calls s calls).
Proof.
  induction calls as [|c calls IH]; intros s; [apply keeps_registrations_refl|].
  simpl. eapply keeps_registrations_trans; [apply after_call_keeps_registrations|].
  apply IH.
Qed.

(** ** Parents are older, and the shape of the context chain *)

Lemma after_call_parent s c d :
  _parent (ctx (after_call s c) d) = _parent (ctx s d) \/
  exists p, c = NewContext d (Some p) /\ _parent (ctx (after_call s c) d) = Some p.
Proof.
  destruct c as [c parent|self v n a tys|self f tys n a|self T n|self cb pe|self e];
    simpl.
  - destruct (contexts s !! c) eqn:E; [by left|].
    unfold new_context. destruct (decide (d = c)) as [->|Hne];
      [|left; by rewrite ctx_set_ctx_ne].
    rewrite ctx_set_ctx_eq. simpl. destruct parent as [p|]; [right; by exists p|].
    left. unfold ctx. by rewrite E.
  - left. pose proof (add_resource_cases self v n a tys s) as Hc.
    destruct (add_resource_error _ _ _ _ _); [by rewrite Hc|].
    destruct Hc as (s' & -> & Hs). simpl.
    by destruct (resource_added_keeps_factories _ _ _ _ Hs d) as (_ & _ & ?).
  - left. pose proof (add_resource_factory_cases self f tys n a s) as Hc.
    destruct (add_resource_factory_error _ _ _ _ _); [by rewrite Hc|].
    destruct Hc as (s' & -> & Hs). simpl.
    destruct (decide (d = self)) as [->|Hne];
      [apply (fat_parent _ _ _ _ Hs)|by rewrite (fat_others _ _ _ _ Hs d Hne)].
  - left. destruct (get_resource_cases self T n s)
      as [[v ->]|[(e & s' & -> & Hc & _)
                 |(d' & r & fid & co & call & v & s' & _ & _ & _ & _ & _ & -> & E & Hs)]].
    + done.
    + simpl. by rewrite (ctx_same_contexts s' s).
    + simpl. by destruct (resource_added_keeps_factories _ _ _ _ Hs d) as (_ & _ & ?).
  - left. unfold add_teardown_callback, bind, read.
    destruct (_teardown_callbacks (ctx s self)) as [l|]; [|done].
    simpl. destruct (decide (d = self)) as [->|Hne];
      [by rewrite ctx_set_ctx_eq|by rewrite ctx_set_ctx_ne].
  - left. by destruct (close_fields self e s d) as (Hp & _).
Qed.

Lemma after_calls_parents_older calls : forall s,
  parents_older s -> Forall well_ordered calls ->
  parents_older (after_calls s calls).
Proof.
  induction calls as [|c calls IH]; intros s Hs Hw; [done|].
  apply Forall_cons in Hw as [Hc Hw]. simpl. apply IH; [|done].
  intros d p Hp. destruct (after_call_parent s c d) as [Heq|(p' & -> & Heq)].
  - rewrite Heq in Hp. by apply Hs.
  - rewrite Heq in Hp. injection Hp as <-. exact Hc.
Qed.

Lemma parents_older_empty : parents_older empty_store.
Proof. intros d p H. discriminate H. Qed.

Lemma chain_from_enough s :
  parents_older s ->
  forall f1 f2 c, c < f1 -> c < f2 -> chain_from f1 s c = chain_from f2 s c.
Proof.
  intros Hs. induction f1 as [|f1 IH]; intros f2 c H1 H2; [lia|].
  destruct f2 as [|f2]; [lia|]. simpl.
  destruct (_parent (ctx s c)) as [p|] eqn:Ep; [|done].
  apply Hs in Ep. f_equal. apply IH; lia.
Qed.

Lemma context_chain_unfold s c :
  parents_older s ->
  context_chain s c
  = c :: match _parent (ctx s c) with
         | Some p => context_chain s p
         | None => []
         end.
Proof.
  intros Hs. unfold context_chain.
  change (chain_from (S c) s c)
    with (c :: match _parent (ctx s c) with
               | Some p => chain_from c s p
               | None => []
               end).
  destruct (_parent (ctx s c)) as [p|] eqn:Ep; [|done].
  apply Hs in Ep. f_equal. apply chain_from_enough; [done|lia..].
Qed.

Lemma context_chain_ind s (P : ctx_id -> list ctx_id -> Prop) :
  parents_older s ->
  (forall c, _parent (ctx s c) = None -> P c [c]) ->
  (forall c p, _parent (ctx s c) = Some p -> p < c ->
               P p (context_chain s p) -> P c (c :: context_chain s p)) ->
  forall c, P c (context_chain s c).
Proof.
  intros Hs Hroot Hstep c.
  induction (lt_wf c) as [c _ IH].
  rewrite context_chain_unfold by done.
  destruct (_parent (ctx s c)) as [p|] eqn:Ep; [|by apply Hroot].
  apply Hstep; [done|by apply Hs|]. apply IH. by apply Hs.
Qed.

Lemma tiers_store_reachable :
  tiers_store
  = after_calls empty_store
      [NewContext 0 None; NewContext 1 (Some 0); NewContext 2 (Some 1);
       AddResource 0 (PyObj "int" 10) "default" None [];
       AddResourceFactory 0 (make_object "str") ["str"] "default" None;
       AddResource 1 (PyObj "int" 11) "default" None [];
       AddResource 1 (PyObj "str" 12) "default" None []].
Proof. evaluate. Qed.

Lemma tiers_store_parents_older : parents_older tiers_store.
Proof.
  rewrite tiers_store_reachable.
  apply after_calls_parents_older; [apply parents_older_empty|].
  repeat constructor.
Qed.

Lemma tiers_store_invariant : store_invariant tiers_store.
Proof.
  rewrite tiers_store_reachable. apply after_calls_invariant, store_invariant_empty.
Qed.


(** X2.  No call removes or replaces a registered resource or factory,
    reopens a closed context, or changes the parent a context has. *)
Theorem registrations_are_permanent s calls :
  keeps_registrations s (after_calls s calls).
Proof. apply after_calls_keeps_registrations. Qed.

(** X3.  When every context is younger than its parent, the chain of a
    context is the context followed by the chain of its parent: the loop
    of [context_chain] ends.  The chain holds no context twice, it ends
    at a root, and the chain of each member is the end of the chain from
    that member on. *)
Theorem context_chain_structure s c :
  parents_older s ->
  context_chain s c
  = c :: match _parent (ctx s c) with
         | Some p => context_chain s p
         | None => []
         end /\
  NoDup (context_chain s c) /\
  (forall d, d ∈ context_chain s c ->
     d <= c /\ context_chain s d `suffix_of` context_chain s c) /\
  exists root,
    last (context_chain s c) = Some root /\ _parent (ctx s root) = None.
Proof.
  intros Hs. split; [by apply context_chain_unfold|].
  assert (forall c, (forall d, d ∈ context_chain s c ->
                       d <= c /\ context_chain s d `suffix_of` context_chain s c)
                    /\ NoDup (context_chain s c)
                    /\ exists root, last (context_chain s c) = Some root /\
                                    _parent (ctx s root) = None) as H.
  { clear c. intros c. induction (lt_wf c) as [c _ IH].
    rewrite (context_chain_unfold s c Hs).
    destruct (_parent (ctx s c)) as [p|] eqn:Ep.
    - pose proof (Hs _ _ Ep) as Hlt.
      destruct (IH p Hlt) as (Hle & Hnd & root & Hlast & Hroot).
      split; [|split].
      + intros d Hd. apply elem_of_cons in Hd as [->|Hd].
        * split; [lia|]. rewrite (context_chain_unfold s c Hs), Ep. done.
        * destruct (Hle d Hd) as [H1 H2]. split; [lia|].
          by apply suffix_cons_r.
      + constructor; [|done]. intros Hc. apply Hle in Hc. lia.
      + exists root. split; [|done]. rewrite last_cons, Hlast. done.
    - split; [|split].
      + intros d Hd. apply list_elem_of_singleton in Hd as ->. split; [lia|].
        rewrite (context_chain_unfold s c Hs), Ep. done.
      + apply NoDup_singleton.
      + exists c. by split. }
  destruct (H c) as (H1 & H2 & H3). done.
Qed.

Lemma context_chain_structure_witness :
  parents_older tiers_store /\
  (context_chain tiers_store 2
   = 2 :: match _parent (ctx tiers_store 2) with
          | Some p => context_chain tiers_store p
          | None => []
          end /\
   NoDup (context_chain tiers_store 2) /\
   (forall d, d ∈ context_chain tiers_store 2 ->
      d <= 2 /\ context_chain tiers_store d `suffix_of` context_chain tiers_store 2) /\
   exists root,
     last (context_chain tiers_store 2) = Some root /\
     _parent (ctx tiers_store root) = None).
Proof.
  split; [exact tiers_store_parents_older|].
  apply (context_chain_structure tiers_store 2), tiers_store_parents_older.
Defined.
Lemma siblings_store_reachable :
  siblings_store
  = after_calls empty_store
      [NewContext 0 None; NewContext 1 (Some 0); NewContext 2 (Some 0);
       AddResourceFactory 0 (make_object "str") ["str"] "default" None].
Proof. evaluate. Qed.

Lemma siblings_store_invariant : store_invariant siblings_store.
Proof.
  rewrite siblings_store_reachable. apply after_calls_invariant, store_invariant_empty.
Qed.

Lemma same_contexts_ctx s s' : contexts s' = contexts s -> forall d, ctx s' d = ctx s d.
Proof. intros H d. by apply ctx_same_contexts. Qed.

Lemma context_chain_ext s s' c :
  (forall d, _parent (ctx s' d) = _parent (ctx s d)) ->
  context_chain s' c = context_chain s c.
Proof. intros H. by apply chain_from_ext. Qed.

(** [get_resource] fails only in the factory tier. *)
Lemma get_resource_failure self T n s e s' :
  get_resource self T n s = (inl e, s') ->
  _resources (ctx s self) !! (T, n) = None /\
  exists d r,
    nearest _resource_factories s (context_chain s self) (T, n) d r /\
    generate_value r self s = (inl e, s').
Proof.
  intros H.
  destruct (_resources (ctx s self) !! (T, n)) as [r0|] eqn:E1;
    [by rewrite (get_resource_direct _ _ _ _ _ E1) in H|].
  split; [done|].
  destruct (next_in_chain _resource_factories s (context_chain s self) (T, n))
    as [r|] eqn:E2.
  - apply next_in_chain_Some in E2 as [d Hd]. exists d, r. split; [done|].
    by rewrite <- (get_resource_factory_tier _ _ _ _ _ _ E1 Hd).
  - apply next_in_chain_None in E2.
    destruct (next_in_chain _resources s (context_chain s self) (T, n))
      as [r|] eqn:E3.
    + apply next_in_chain_Some in E3 as [d Hd].
      by rewrite (get_resource_resource_tier _ _ _ _ _ _ E1 E2 Hd) in H.
    + apply next_in_chain_None in E3.
      by rewrite (get_resource_miss _ _ _ _ E1 E2 E3) in H.
Qed.

(** X4.  When [add_resource_factory] raises, the store is what it was,
    and the exception is the [TypeError], [ValueError] or
    [ResourceConflict] of the first check that fails. *)
Theorem add_resource_factory_atomic_on_failure self f tys n a s e s' :
  add_resource_factory self f tys n a s = (inl e, s') ->
  s' = s /\
  (e = TypeError \/ e = ValueError \/ e = ResourceConflict) /\
  add_resource_factory_error (ctx s self) f tys n a = Some e.
Proof.
  intros H. pose proof (add_resource_factory_cases self f tys n a s) as Hc.
  destruct (add_resource_factory_error (ctx s self) f tys n a) as [e0|] eqn:E.
  - rewrite Hc in H. injection H as <- <-. split; [done|]. split; [|done].
    unfold add_resource_factory_error in E.
    repeat match type of E with
           | (if ?b then _ else _) = _ => destruct b
           end; first [discriminate E | injection E as <-; auto].
  - destruct Hc as (s1 & Hc & _). rewrite Hc in H. discriminate H.
Qed.

Lemma add_resource_factory_atomic_on_failure_witness :
  add_resource_factory 0 (make_object "int") ["int"] "other" (Some "svc") factory_store
  = (inl ResourceConflict, factory_store) /\
  (factory_store = factory_store /\
   (ResourceConflict = TypeError \/ ResourceConflict = ValueError
    \/ ResourceConflict = ResourceConflict) /\
   add_resource_factory_error (ctx factory_store 0) (make_object "int") ["int"]
     "other" (Some "svc") = Some ResourceConflict).
Proof.
  assert (add_resource_factory 0 (make_object "int") ["int"] "other" (Some "svc")
            factory_store = (inl ResourceConflict, factory_store)) as H
    by evaluate.
  split; [exact H|].
  exact (add_resource_factory_atomic_on_failure 0 (make_object "int") ["int"]
           "other" (Some "svc") factory_store ResourceConflict factory_store H).
Defined.

(** X5.  When [add_resource] returns, the container it returns is in the
    table under each of its types, [get_resource] on the same context
    gives the value back for each of them without changing the store,
    the context attribute (if one was asked for) holds the value, one
    [resource_added] event was dispatched, and no other context
    changed. *)
Theorem add_resource_then_get_resource self v n a tys s r s' :
  add_resource self v n a tys s = (inr r, s') ->
  r = new_resource v n a tys /\
  effects s' = (effects s ++ [Dispatched self r])%list /\
  (forall T, T ∈ effective_types v tys ->
     _resources (ctx s' self) !! (T, n) = Some r /\
     get_resource self T n s' = (inr v, s')) /\
  (truthy a = true -> attrs (ctx s' self) !! default "" a = Some v) /\
  (forall d, d <> self -> ctx s' d = ctx s d).
Proof.
  intros H. pose proof (add_resource_cases self v n a tys s) as Hc.
  destruct (add_resource_error (ctx s self) v n a tys) as [e0|] eqn:E;
    [rewrite Hc in H; discriminate H|].
  destruct Hc as (s1 & Hc & Hs). rewrite Hc in H. injection H as <- <-.
  split; [done|]. split; [apply (rat_effects _ _ _ _ Hs)|].
  split; [|split].
  - intros T HT.
    assert (_resources (ctx s1 self) !! (T, n) = Some (new_resource v n a tys)) as Hl.
    { rewrite (rat_resources _ _ _ _ Hs). simpl. by rewrite bool_decide_eq_true_2. }
    split; [done|]. by rewrite (get_resource_direct _ _ _ _ _ Hl).
  - intros Ha. rewrite (rat_attrs _ _ _ _ Hs). simpl. rewrite Ha.
    by rewrite lookup_insert_eq.
  - apply (rat_others _ _ _ _ Hs).
Qed.

Lemma add_resource_then_get_resource_witness :
  let r := new_resource (PyObj "int" 3) "n" (Some "y") ["int"; "object"] in
  let s' := snd (add_resource 0 (PyObj "int" 3) "n" (Some "y") ["int"; "object"]
                   example_store) in
  add_resource 0 (PyObj "int" 3) "n" (Some "y") ["int"; "object"] example_store
  = (inr r, s') /\
  (r = new_resource (PyObj "int" 3) "n" (Some "y") ["int"; "object"] /\
   effects s' = (effects example_store ++ [Dispatched 0 r])%list /\
   (forall T, T ∈ effective_types (PyObj "int" 3) ["int"; "object"] ->
      _resources (ctx s' 0) !! (T, "n") = Some r /\
      get_resource 0 T "n" s' = (inr (PyObj "int" 3), s')) /\
   (truthy (Some "y") = true ->
    attrs (ctx s' 0) !! default "" (Some "y") = Some (PyObj "int" 3)) /\
   (forall d, d <> 0 -> ctx s' d = ctx example_store d)).
Proof.
  cbv zeta.
  assert (add_resource 0 (PyObj "int" 3) "n" (Some "y") ["int"; "object"] example_store
          = (inr (new_resource (PyObj "int" 3) "n" (Some "y") ["int"; "object"]),
             snd (add_resource 0 (PyObj "int" 3) "n" (Some "y") ["int"; "object"]
                    example_store))) as H by evaluate.
  split; [exact H|].
  exact (add_resource_then_get_resource 0 (PyObj "int" 3) "n" (Some "y")
           ["int"; "object"] example_store _ _ H).
Defined.

(** X6.  When [get_resource] answers from a factory, the callback was
    called once with the requesting context, and the value is registered
    there under every type of the factory and under its context
    attribute: a request for any of these types gets the same value with
    no further call.  No other context changes. *)
Theorem generated_value_serves_every_type self T n s d r v s' :
  _resources (ctx s self) !! (T, n) = None ->
  nearest _resource_factories s (context_chain s self) (T, n) d r ->
  get_resource self T n s = (inr v, s') ->
  exists fid co call,
    value_or_factory r = PyCallable fid co call /\
    call self (length (effects s)) = inr v /\
    effects s'
    = (effects s
       ++ [FactoryCalled fid self;
           Dispatched self (new_resource v (name r) (context_attr r) (types r))])%list /\
    (forall T', T' ∈ effective_types v (types r) ->
       get_resource self T' (name r) s' = (inr v, s')) /\
    (truthy (context_attr r) = true ->
     attrs (ctx s' self) !! default "" (context_attr r) = Some v) /\
    (forall x, x <> self -> ctx s' x = ctx s x).
Proof.
  intros E1 Hd H. rewrite (get_resource_factory_tier _ _ _ _ _ _ E1 Hd) in H.
  destruct (generate_value_cases r self s)
    as [(e & s1 & Hg & _)
       |(fid & co & call & v1 & s1 & Hf & Hv & Hcall & Hg & E & Hs)];
    rewrite Hg in H; [discriminate H|].
  injection H as -> ->. exists fid, co, call.
  split; [done|]. split; [done|]. split; [|split; [|split]].
  - rewrite (rat_effects _ _ _ _ Hs). simpl. by rewrite <- app_assoc.
  - intros T' HT'. apply (get_resource_direct _ _ _ _ (new_resource v (name r) (context_attr r) (types r))).
    rewrite (rat_resources _ _ _ _ Hs). simpl. by rewrite bool_decide_eq_true_2.
  - intros Ha. rewrite (rat_attrs _ _ _ _ Hs). simpl. rewrite Ha.
    by rewrite lookup_insert_eq.
  - intros x Hx. by rewrite (rat_others _ _ _ _ Hs x Hx).
Qed.

Lemma generated_value_serves_every_type_witness :
  exists fid co call,
    value_or_factory
      (new_factory (make_object "str") ["str"; "object"] "default" (Some "svc"))
    = PyCallable fid co call /\
    call 1 (length (effects two_type_factory_store)) = inr (PyObj "str" 1) /\
    effects (snd (get_resource 1 "object" "default" two_type_factory_store))
    = (effects two_type_factory_store
       ++ [FactoryCalled fid 1;
           Dispatched 1 (new_resource (PyObj "str" 1) "default" (Some "svc")
                           ["str"; "object"])])%list /\
    (forall T', T' ∈ effective_types (PyObj "str" 1) ["str"; "object"] ->
       get_resource 1 T' "default"
         (snd (get_resource 1 "object" "default" two_type_factory_store))
       = (inr (PyObj "str" 1),
          snd (get_resource 1 "object" "default" two_type_factory_store))) /\
    (truthy (Some "svc") = true ->
     attrs (ctx (snd (get_resource 1 "object" "default" two_type_factory_store)) 1)
       !! default "" (Some "svc") = Some (PyObj "str" 1)) /\
    (forall x, x <> 1 ->
       ctx (snd (get_resource 1 "object" "default" two_type_factory_store)) x
       = ctx two_type_factory_store x).
Proof.
  apply (generated_value_serves_every_type 1 "object" "default"
           two_type_factory_store 0
           (new_factory (make_object "str") ["str"; "object"] "default" (Some "svc"))
           (PyObj "str" 1)).
  - evaluate.
  - exists 1. split; [evaluate|]. split; [evaluate|].
    intros [|j] d' Hj; [intros [= <-]|lia]; evaluate.
  - evaluate.
Defined.

(** X7.  [get_resource] raises only in the factory tier.  When it does,
    no context has changed (at most the call of the callback was
    recorded), so the same factory answers the next request and is
    called again. *)
Theorem failed_get_resource_registers_nothing self T n s e s' :
  get_resource self T n s = (inl e, s') ->
  contexts s' = contexts s /\
  (s' = s \/ exists fid, s' = emit (FactoryCalled fid self) s) /\
  exists d r,
    _resources (ctx s self) !! (T, n) = None /\
    nearest _resource_factories s (context_chain s self) (T, n) d r /\
    generate_value r self s = (inl e, s') /\
    nearest _resource_factories s' (context_chain s' self) (T, n) d r /\
    get_resource self T n s' = generate_value r self s'.
Proof.
  intros H.
  destruct (get_resource_failure _ _ _ _ _ _ H) as (E1 & d & r & Hd & Hg).
  assert (contexts s' = contexts s /\
          (s' = s \/ exists fid, s' = emit (FactoryCalled fid self) s)) as [Hc Hs].
  { destruct (generate_value_cases r self s)
      as [(e1 & s1 & Hg1 & Hc & Hs)|(fid & co & call & v1 & s1 & _ & _ & _ & Hg1 & _)];
      rewrite Hg1 in Hg; [|discriminate Hg].
    by injection Hg as -> ->. }
  split; [done|]. split; [done|]. exists d, r.
  do 3 (split; [done|]).
  pose proof (same_contexts_ctx s s' Hc) as Hctx.
  assert (nearest _resource_factories s' (context_chain s' self) (T, n) d r) as Hd'.
  { rewrite (context_chain_ext s s') by (intros x; by rewrite Hctx).
    apply (nearest_ext _ s); [intros x; by rewrite Hctx|done]. }
  split; [done|].
  apply (get_resource_factory_tier _ _ _ _ d); [by rewrite Hctx|done].
Qed.

Lemma failed_get_resource_registers_nothing_witness :
  let s' := emit (FactoryCalled 8 1) None_factory_store in
  get_resource 1 "str" "default" None_factory_store = (inl ValueError, s') /\
  (contexts s' = contexts None_factory_store /\
   (s' = None_factory_store \/
    exists fid, s' = emit (FactoryCalled fid 1) None_factory_store) /\
   exists d r,
     _resources (ctx None_factory_store 1) !! ("str", "default") = None /\
     nearest _resource_factories None_factory_store
       (context_chain None_factory_store 1) ("str", "default") d r /\
     generate_value r 1 None_factory_store = (inl ValueError, s') /\
     nearest _resource_factories s' (context_chain s' 1) ("str", "default") d r /\
     get_resource 1 "str" "default" s' = generate_value r 1 s').
Proof.
  cbv zeta.
  assert (get_resource 1 "str" "default" None_factory_store
          = (inl ValueError, emit (FactoryCalled 8 1) None_factory_store)) as H
    by evaluate.
  split; [exact H|].
  exact (failed_get_resource_registers_nothing 1 "str" "default" None_factory_store
           ValueError _ H).
Defined.

(** X8.  What [get_resource] raises in the factory tier, each time after
    the callback was called: what the callback raised; [ValueError] when
    the callback returned [None]; [ResourceConflict] when the context
    attribute of the factory is taken on the requesting context, or when
    the requesting context already holds a resource of one of the other
    types of the factory. *)
Theorem generation_failures self T n s d r fid co call :
  _resources (ctx s self) !! (T, n) = None ->
  nearest _resource_factories s (context_chain s self) (T, n) d r ->
  is_factory r = true ->
  value_or_factory r = PyCallable fid co call ->
  let s' := emit (FactoryCalled fid self) s in
  (forall e, call self (length (effects s)) = inl e ->
     get_resource self T n s = (inl e, s')) /\
  (call self (length (effects s)) = inr PyNone ->
     get_resource self T n s = (inl ValueError, s')) /\
  (forall v, call self (length (effects s)) = inr v ->
     is_None v = false ->
     resource_name_re_fullmatch (name r) = true ->
     truthy (context_attr r) = true ->
     getattr_static_is_not_None (ctx s self) (default "" (context_attr r)) = true ->
     get_resource self T n s = (inl ResourceConflict, s')) /\
  (forall v T', call self (length (effects s)) = inr v ->
     is_None v = false ->
     resource_name_re_fullmatch (name r) = true ->
     truthy (context_attr r)
     && getattr_static_is_not_None (ctx s self) (default "" (context_attr r)) = false ->
     T' ∈ effective_types v (types r) ->
     is_Some (_resources (ctx s self) !! (T', name r)) ->
     get_resource self T n s = (inl ResourceConflict, s')).
Proof.
  intros E1 Hd Hf Hv s'.
  rewrite (get_resource_factory_tier _ _ _ _ _ _ E1 Hd).
  rewrite (generate_value_unfold _ _ _ _ _ _ Hf Hv).
  split; [|split; [|split]].
  - by intros e ->.
  - intros ->. by rewrite (add_resource_raises _ _ _ _ _ _ ValueError).
  - intros v -> Hn Hnm Ha Hg.
    rewrite (add_resource_raises _ _ _ _ _ _ ResourceConflict); [done|].
    unfold add_resource_error. rewrite Hn, Hnm. simpl. rewrite Ha.
    change (ctx (emit (FactoryCalled fid self) s) self) with (ctx s self).
    by rewrite Hg.
  - intros v T' -> Hn Hnm Ha HT' Hl.
    rewrite (add_resource_raises _ _ _ _ _ _ ResourceConflict); [done|].
    unfold add_resource_error. rewrite Hn, Hnm. simpl.
    change (ctx (emit (FactoryCalled fid self) s) self) with (ctx s self).
    rewrite Ha.
    assert (existsb (fun t => bool_decide (is_Some (_resources (ctx s self) !! (t, name r))))
              (effective_types v (types r)) = true) as ->; [|done].
    apply existsb_exists. exists T'. split; [by apply list_elem_of_In|].
    by apply bool_decide_eq_true_2.
Qed.

Lemma generation_failures_witness :
  get_resource 1 "str" "default" None_factory_store
  = (inl ValueError, emit (FactoryCalled 8 1) None_factory_store).
Proof.
  refine (proj1 (proj2 (generation_failures 1 "str" "default" None_factory_store 0
                          (new_factory make_None ["str"] "default" None)
                          8 false (fun _ _ => inr PyNone) _ _ _ _)) _).
  - evaluate.
  - exists 1. split; [evaluate|]. split; [evaluate|].
    intros [|j] d' Hj; [intros [= <-]|lia]; evaluate.
  - reflexivity.
  - reflexivity.
  - reflexivity.
Defined.


(** X10.  In a well formed store, a request that [get_resource] has
    answered is answered the same way again, with no change of the
    store. *)
Theorem get_resource_idempotent self T n s v s' :
  store_invariant s ->
  get_resource self T n s = (inr v, s') ->
  get_resource self T n s' = (inr v, s').
Proof.
  intros Hinv H.
  destruct (get_resource_cases self T n s)
    as [[v1 Hg]|[(e & s1 & Hg & _)
               |(d & r & fid & co & call & v1 & s1 & _ & Hd & _ & _ & _ & Hg & E & Hs)]];
    rewrite Hg in H; [|discriminate H|]; injection H as -> ->; [done|].
  destruct Hd as (i & _ & Hl & _).
  destruct (inv_factories _ (Hinv d) T n r Hl) as (Hn & HT & _).
  apply (get_resource_direct _ _ _ _
           (new_resource v (name r) (context_attr r) (types r))).
  rewrite (rat_resources _ _ _ _ Hs). simpl. rewrite bool_decide_eq_true_2; [done|].
  split; [done|]. unfold effective_types. destruct (types r); [|done].
  by apply elem_of_nil in HT.
Qed.

Lemma get_resource_idempotent_witness :
  let s' := snd (get_resource 1 "str" "default" siblings_store) in
  get_resource 1 "str" "default" s' = (inr (PyObj "str" 1), s').
Proof.
  cbv zeta.
  apply (get_resource_idempotent 1 "str" "default" siblings_store);
    [exact siblings_store_invariant|evaluate].
Defined.

(** X16.  After [close] has returned or raised, the context is closed,
    the callbacks that were not called are gone, and every later
    [close] raises [RuntimeError] and changes nothing. *)
Theorem close_is_final self exception exception' s :
  let s1 := snd (close self exception s) in
  _closed (ctx s1 self) = true /\
  (_closed (ctx s self) = false -> _teardown_callbacks (ctx s1 self) = None) /\
  close self exception' s1 = (inl RuntimeError, s1).
Proof.
  intros s1. subst s1.
  destruct (close_fields self exception s self) as (_ & _ & _ & _ & _ & Hsame & Hcl).
  assert (_closed (ctx (snd (close self exception s)) self) = true) as Hc.
  { destruct (_closed (ctx s self)) eqn:E.
    - rewrite Hsame; [done|by right].
    - by destruct (Hcl eq_refl). }
  split; [done|]. split; [intros E; by destruct (Hcl E)|].
  rewrite close_unfold. cbv zeta. by rewrite Hc.
Qed.






(** ** [require_resource] *)

Lemma get_resource_None_nothing_available self T n s s' :
  store_invariant s ->
  get_resource self T n s = (inr PyNone, s') ->
  nothing_available s self (T, n).
Proof.
  intros Hinv Hg.
  destruct (_resources (ctx s self) !! (T, n)) as [r|] eqn:E1.
  { rewrite (get_resource_direct _ _ _ _ _ E1) in Hg. injection Hg as Hr _.
    destruct (inv_resources _ (Hinv self) T n r E1) as (_ & _ & _ & Hnn & _).
    by rewrite Hr in Hnn. }
  split; [done|].
  destruct (next_in_chain _resource_factories s (context_chain s self) (T, n))
    as [f|] eqn:E3.
  { apply next_in_chain_Some in E3 as [x Hx].
    rewrite (get_resource_factory_tier _ _ _ _ _ _ E1 Hx) in Hg.
    by apply generate_value_not_None in Hg. }
  apply next_in_chain_None in E3. split; [done|].
  destruct (next_in_chain _resources s (context_chain s self) (T, n))
    as [r'|] eqn:E4; [|by apply next_in_chain_None].
  apply next_in_chain_Some in E4 as [x Hx].
  rewrite (get_resource_resource_tier _ _ _ _ _ _ E1 E3 Hx) in Hg.
  injection Hg as Hr _. destruct Hx as (i & _ & Hl & _).
  destruct (inv_resources _ (Hinv x) T n r' Hl) as (_ & _ & _ & Hnn & _).
  by rewrite Hr in Hnn.
Qed.

(** X11.  In a well formed store, [require_resource] raises
    [ResourceNotFound] exactly when neither the context nor its chain
    holds a resource or a factory for the pair; the exception carries
    the requested type and name and the store is unchanged.  Otherwise
    it returns what [get_resource] returns, never [None], or raises what
    [get_resource] raises. *)
Theorem require_resource_outcomes self T n s :
  store_invariant s ->
  (forall T' n' s',
     require_resource self T n s = (inl (ResourceNotFound T' n'), s') <->
     T' = T /\ n' = n /\ s' = s /\ nothing_available s self (T, n)) /\
  (forall v s',
     require_resource self T n s = (inr v, s') <->
     get_resource self T n s = (inr v, s') /\ is_None v = false) /\
  (forall e s',
     require_resource self T n s = (inl (Propagated e), s') <->
     get_resource self T n s = (inl e, s')).
Proof.
  intros Hinv. unfold require_resource. split; [|split].
  - intros T' n' s'. split.
    + destruct (get_resource self T n s) as [[e|v] s1] eqn:Hg; [done|].
      destruct (is_None v) eqn:Hv; [|done]. intros [= <- <- <-].
      destruct v; try discriminate Hv.
      pose proof (get_resource_None_keeps_store _ _ _ _ _ Hg) as ->.
      do 3 (split; [done|]).
      by apply (get_resource_None_nothing_available self T n s s).
    + intros (-> & -> & -> & E1 & E2 & E3).
      by rewrite (get_resource_miss _ _ _ _ E1 E2 E3).
  - intros v s'. destruct (get_resource self T n s) as [[e|v1] s1]; [by split; [|intros []]|].
    destruct (is_None v1) eqn:Hv.
    + split; [done|]. intros [[= -> ->] Hn]. congruence.
    + split; [intros [= -> ->]|intros [[= -> ->] _]]; done.
  - intros e s'. destruct (get_resource self T n s) as [[e1|v1] s1].
    + split; intros [= -> ->]; done.
    + destruct (is_None v1); split; done.
Qed.

Lemma require_resource_outcomes_witness :
  require_resource 2 "float" "default" tiers_store
  = (inl (ResourceNotFound "float" "default"), tiers_store).
Proof.
  apply (proj1 (require_resource_outcomes 2 "float" "default" tiers_store
                  tiers_store_invariant)).
  do 3 (split; [reflexivity|]).
  split; [evaluate|]. split; each_of_chain.
Defined.

(** X12.  [close] does not stop requests: a resource registered on any
    context, the closed one included, is still returned by
    [get_resource] after the [close]. *)
Theorem closed_context_still_serves self exception s c T n r :
  _resources (ctx s c) !! (T, n) = Some r ->
  let s' := snd (close self exception s) in
  _closed (ctx s' self) = true /\
  get_resource c T n s' = (inr (value_or_factory r), s').
Proof.
  intros Hr s'. subst s'.
  destruct (close_fields self exception s self) as (_ & _ & _ & _ & _ & Hsame & Hcl).
  destruct (close_fields self exception s c) as (_ & Hres & _).
  split.
  - destruct (_closed (ctx s self)) eqn:E.
    + rewrite Hsame; [done|by right].
    + by destruct (Hcl eq_refl).
  - apply get_resource_direct. by rewrite Hres.
Qed.

Lemma closed_context_still_serves_witness :
  let s' := snd (close 0 None example_store) in
  _closed (ctx s' 0) = true /\
  get_resource 0 "str" "default" s' = (inr (PyObj "str" 1), s').
Proof.
  apply (closed_context_still_serves 0 None example_store 0 "str" "default"
           (new_resource (PyObj "str" 1) "default" (Some "x") ["str"; "object"])).
  evaluate.
Defined.

(** ** [get_resources] *)

Lemma get_resources_from_enough s ty :
  parents_older s ->
  forall f1 f2 c ip, c < f1 -> c < f2 ->
    get_resources_from f1 s c ty ip = get_resources_from f2 s c ty ip.
Proof.
  intros Hs. induction f1 as [|f1 IH]; intros f2 c ip H1 H2; [lia|].
  destruct f2 as [|f2]; [lia|]. simpl.
  destruct ip; [|done].
  destruct (_parent (ctx s c)) as [p|] eqn:Ep; [|done].
  apply Hs in Ep. f_equal. apply IH; lia.
Qed.

Lemma get_resources_unfold s c ty ip :
  parents_older s ->
  get_resources s c ty ip
  = (List.filter (type_matches ty) (map snd (map_to_list (_resources (ctx s c))))
     ++ match ip, _parent (ctx s c) with
        | true, Some p => get_resources s p ty true
        | _, _ => []
        end)%list.
Proof.
  intros Hs. unfold get_resources.
  change (get_resources_from (S c) s c ty ip)
    with (match ip, _parent (ctx s c) with
          | true, Some p =>
              (List.filter (type_matches ty)
                 (map snd (map_to_list (_resources (ctx s c))))
               ++ get_resources_from c s p ty true)%list
          | _, _ =>
              List.filter (type_matches ty)
                (map snd (map_to_list (_resources (ctx s c))))
          end).
  destruct ip; [|by rewrite app_nil_r].
  destruct (_parent (ctx s c)) as [p|] eqn:Ep; [|by rewrite app_nil_r].
  apply Hs in Ep. f_equal. apply get_resources_from_enough; [done|lia..].
Qed.

Lemma own_resources_elem x ty r :
  r ∈ List.filter (type_matches ty) (map snd (map_to_list (_resources x))) <->
  (exists k, _resources x !! k = Some r) /\ type_matches ty r = true.
Proof.
  rewrite list_elem_of_In, filter_In, <- list_elem_of_In, list_elem_of_fmap.
  split.
  - intros [([k r'] & -> & Hk) Hm]. apply elem_of_map_to_list in Hk. eauto.
  - intros [[k Hk] Hm]. split; [|done]. exists (k, r). split; [done|].
    by apply elem_of_map_to_list.
Qed.

(** X13.  When every context is younger than its parent, the containers
    [get_resources] returns are those of the resource tables of the
    context, and of its whole chain when [include_parents] is true, that
    have the requested type (all of them when the type is [None]).  In
    a well formed store none of them is a factory. *)
Theorem get_resources_membership s self ty include_parents r :
  parents_older s ->
  (r ∈ get_resources s self ty include_parents <->
   exists d k,
     (if include_parents then d ∈ context_chain s self else d = self) /\
     _resources (ctx s d) !! k = Some r /\
     type_matches ty r = true) /\
  (store_invariant s ->
   r ∈ get_resources s self ty include_parents -> is_factory r = false).
Proof.
  intros Hs.
  assert (r ∈ get_resources s self ty include_parents <->
          exists d k,
            (if include_parents then d ∈ context_chain s self else d = self) /\
            _resources (ctx s d) !! k = Some r /\
            type_matches ty r = true) as Hmem.
  { destruct include_parents.
    - induction (lt_wf self) as [c _ IH].
      rewrite (get_resources_unfold s c ty true Hs), (context_chain_unfold s c Hs).
      rewrite elem_of_app, own_resources_elem.
      destruct (_parent (ctx s c)) as [p|] eqn:Ep.
      + rewrite (IH p (Hs _ _ Ep)). split.
        * intros [[[k Hk] Hm]|(d & k & Hd & Hk & Hm)].
          -- exists c, k. split; [apply elem_of_cons; by left|done].
          -- exists d, k. split; [apply elem_of_cons; by right|done].
        * intros (d & k & Hd & Hk & Hm). apply elem_of_cons in Hd as [->|Hd].
          -- left. eauto.
          -- right. eauto.
      + split.
        * intros [[[k Hk] Hm]|Hn]; [|by apply elem_of_nil in Hn].
          exists c, k. split; [apply elem_of_cons; by left|done].
        * intros (d & k & Hd & Hk & Hm). apply list_elem_of_singleton in Hd as ->.
          left. eauto.
    - rewrite (get_resources_unfold s self ty false Hs), app_nil_r, own_resources_elem.
      split.
      + intros [[k Hk] Hm]. by exists self, k.
      + intros (d & k & -> & Hk & Hm). eauto. }
  split; [done|].
  intros Hinv Hr. apply Hmem in Hr as (d & [T n] & _ & Hk & _).
  by destruct (inv_resources _ (Hinv d) T n r Hk) as (_ & _ & ? & _).
Qed.

Lemma get_resources_membership_witness :
  let r := new_resource (PyObj "int" 10) "default" None [] in
  r ∈ get_resources tiers_store 2 (Some "int") true /\
  is_factory r = false.
Proof.
  cbv zeta.
  destruct (get_resources_membership tiers_store 2 (Some "int") true
              (new_resource (PyObj "int" 10) "default" None [])
              tiers_store_parents_older) as [Hmem Hfac].
  assert (new_resource (PyObj "int" 10) "default" None []
          ∈ get_resources tiers_store 2 (Some "int") true) as H.
  { apply Hmem. exists 0, ("int", "default").
    split; [|split; evaluate].
    apply list_elem_of_In. vm_compute. auto. }
  split; [exact H|exact (Hfac tiers_store_invariant H)].
Defined.

(** ** [async with] *)






(** ** [__getattr__] *)

Lemma first_in_chain_Some {A} (f : Context -> option A) s chain d a :
  first_in_chain f s chain = Some (d, a) <-> first_at f s chain d a.
Proof.
  induction chain as [|c chain IH]; simpl.
  - split; [done|]. intros (i & Hi & _). by rewrite lookup_nil in Hi.
  - destruct (f (ctx s c)) as [a0|] eqn:Ec.
    + split.
      * intros [= -> ->]. exists 0. split; [done|]. split; [done|]. intros; lia.
      * intros ([|i] & Hi & Hf & Hbefore).
        -- simpl in Hi. injection Hi as ->. congruence.
        -- specialize (Hbefore 0 c (Nat.lt_0_succ i) eq_refl). congruence.
    + rewrite IH. split.
      * intros (i & Hi & Hf & Hbefore). exists (S i). split; [done|]. split; [done|].
        intros [|j] d' Hj Hd'; [simpl in Hd'; by injection Hd' as <-|].
        apply (Hbefore j); [lia|done].
      * intros ([|i] & Hi & Hf & Hbefore).
        -- simpl in Hi. injection Hi as ->. congruence.
        -- exists i. split; [done|]. split; [done|].
           intros j d' Hj Hd'. apply (Hbefore (S j)); [lia|done].
Qed.

Lemma first_in_chain_None {A} (f : Context -> option A) s chain :
  first_in_chain f s chain = None <-> none_at f s chain.
Proof.
  induction chain as [|c chain IH]; simpl.
  - split; [|done]. intros _ d Hd. by apply elem_of_nil in Hd.
  - destruct (f (ctx s c)) as [a0|] eqn:Ec.
    + split; [done|]. intros H. specialize (H c). rewrite Ec in H.
      discriminate H. apply elem_of_cons. by left.
    + rewrite IH. split.
      * intros H d Hd. apply elem_of_cons in Hd as [->|Hd]; [done|by apply H].
      * intros H d Hd. apply H, elem_of_cons. by right.
Qed.

(** X15.  [__getattr__]: a factory registered with this context
    attribute on the nearest context of the chain generates the value
    for the requesting context, which in a well formed store binds it
    there as attribute and as resource; without such a factory the
    attribute of the nearest proper ancestor that has it is returned;
    otherwise [AttributeError] is raised and the store is unchanged. *)
Theorem getattr_tiers self a s :
  (forall d r,
     first_at (factory_for_attr a) s (context_chain s self) d r ->
     __getattr__ self a s
     = match generate_value r self s with
       | (inl e, s') => (inl e, s')
       | (inr v, s') => (inr (Value v), s')
       end /\
     forall v s',
       store_invariant s ->
       generate_value r self s = (inr v, s') ->
       __getattr__ self a s = (inr (Value v), s') /\
       attrs (ctx s' self) !! a = Some v /\
       forall T, T ∈ types r -> get_resource self T (name r) s' = (inr v, s')) /\
  (forall d v,
     none_at (factory_for_attr a) s (context_chain s self) ->
     first_at (has_attr a) s (tail (context_chain s self)) d tt ->
     attrs (ctx s d) !! a = Some v ->
     __getattr__ self a s = (inr (Value v), s)) /\
  (none_at (factory_for_attr a) s (context_chain s self) ->
   none_at (has_attr a) s (tail (context_chain s self)) ->
   __getattr__ self a s = (inl AttributeError, s)).
Proof.
  unfold __getattr__. split; [|split].
  - intros d r Hd. pose proof Hd as Hd'.
    apply first_in_chain_Some in Hd' as ->. split; [done|].
    intros v s' Hinv Hg. rewrite Hg. split; [done|].
    destruct Hd as (i & _ & Hl & _). unfold factory_for_attr in Hl.
    destruct (inv_aliases _ (Hinv d) a r Hl) as (Hattr & Hne & Htys).
    destruct (generate_value_cases r self s)
      as [(e & s1 & Hg1 & _)
         |(fid & co & call & v1 & s1 & _ & _ & _ & Hg1 & E & Hs)];
      rewrite Hg1 in Hg; [discriminate Hg|]. injection Hg as -> ->.
    split.
    + rewrite (rat_attrs _ _ _ _ Hs). simpl. rewrite Hattr. simpl.
      destruct a; [done|]. by rewrite lookup_insert_eq.
    + intros T HT.
      apply (get_resource_direct _ _ _ _
               (new_resource v (name r) (context_attr r) (types r))).
      rewrite (rat_resources _ _ _ _ Hs). simpl.
      rewrite bool_decide_eq_true_2; [done|]. split; [done|].
      unfold effective_types. destruct (types r); [by apply elem_of_nil in HT|done].
  - intros d v Hnone Hd Hv.
    apply first_in_chain_None in Hnone as ->.
    apply first_in_chain_Some in Hd as ->. unfold getattr_of. by rewrite Hv.
  - intros Hnone Hnone'.
    apply first_in_chain_None in Hnone as ->.
    by apply first_in_chain_None in Hnone' as ->.
Qed.

Lemma factory_store_invariant : store_invariant factory_store.
Proof.
  assert (factory_store
          = after_calls empty_store
              [NewContext 0 None; NewContext 1 (Some 0);
               AddResourceFactory 0 (make_object "str") ["str"] "default"
                 (Some "svc")]) as -> by evaluate.
  apply after_calls_invariant, store_invariant_empty.
Qed.

Lemma getattr_tiers_witness :
  __getattr__ 1 "svc" factory_store
  = (inr (Value (PyObj "str" 1)), snd (__getattr__ 1 "svc" factory_store)) /\
  attrs (ctx (snd (__getattr__ 1 "svc" factory_store)) 1) !! "svc"
  = Some (PyObj "str" 1) /\
  __getattr__ 1 "x" example_store = (inr (Value (PyObj "str" 1)), example_store) /\
  __getattr__ 1 "y" example_store = (inl AttributeError, example_store).
Proof.
  destruct (getattr_tiers 1 "svc" factory_store) as (H1 & _ & _).
  destruct (H1 0 (new_factory (make_object "str") ["str"] "default" (Some "svc")))
    as [_ H1'].
  { exists 1. split; [evaluate|]. split; [evaluate|].
    intros [|j] d' Hj; [intros [= <-]|lia]; evaluate. }
  destruct (H1' (PyObj "str" 1) (snd (__getattr__ 1 "svc" factory_store))
              factory_store_invariant) as (Ha & Hb & _); [evaluate|].
  split; [exact Ha|]. split; [exact Hb|].
  destruct (getattr_tiers 1 "x" example_store) as (_ & H2 & _).
  destruct (getattr_tiers 1 "y" example_store) as (_ & _ & H3).
  split.
  - apply (H2 0 (PyObj "str" 1)).
    + each_of_chain.
    + exists 0. split; [evaluate|]. split; [evaluate|]. intros j d' Hj. lia.
    + evaluate.
  - apply H3; each_of_chain.
Defined.

(** ** [context_teardown] *)



(** ** [Component.add_component] *)

Lemma add_component_cases {Config} (self : Components.ComponentObject Config)
    alias type config :
  match Components.add_component self alias type config with
  | inl e =>
      (e = RuntimeError /\ Components._component_started self = true) \/
      (e = TypeError /\ Components._component_started self = false /\ alias = "") \/
      (e = ValueError /\ Components._component_started self = false /\
       alias <> "" /\ alias ∈ map fst (Components.children self))
  | inr self' =>
      Components._component_started self = false /\
      Components._component_started self' = false /\
      alias <> "" /\ (alias ∉ map fst (Components.children self)) /\
      Components.children self'
      = (Components.children self
         ++ [(alias, (Components.type_or_alias type alias, config))])%list
  end.
Proof.
  unfold Components.add_component, Components.children.
  destruct (Components._component_started self) eqn:Es; [by left|].
  case_bool_decide as Ha; [right; left; done|].
  destruct (Components._child_components self) as [l|] eqn:El; simpl.
  - case_bool_decide as Hin; [right; right; done|]. simpl. done.
  - simpl. do 3 (split; [done|]). split; [|done]. intros H. by apply elem_of_nil in H.
Qed.

Lemma type_or_alias_not_empty type alias :
  alias <> "" -> Components.type_or_alias type alias <> Components.TypeName "".
Proof.
  intros Ha. destruct type as [[[|a n]|cls]|]; simpl; congruence.
Qed.

(** X19.  Whatever calls of [add_component] a component receives, the
    aliases of its children stay distinct and non-empty and every child
    has a type; once the start pass has marked the component as started,
    every [add_component] raises [RuntimeError]. *)
Theorem add_component_keeps_aliases_distinct {Config}
    (calls : list (Components.component_call Config)) :
  let self := fold_left Components.after_component_call calls Components.Component_init in
  NoDup (map fst (Components.children self)) /\
  Forall (fun entry => fst entry <> "" /\ fst (snd entry) <> Components.TypeName "")
    (Components.children self) /\
  (Components.Start ∈ calls ->
   forall alias type config,
     Components.add_component self alias type config = inl RuntimeError).
Proof.
  cbv zeta.
  assert (forall (o : Components.ComponentObject Config),
            NoDup (map fst (Components.children o)) ->
            Forall (fun entry => fst entry <> "" /\
                                 fst (snd entry) <> Components.TypeName "")
              (Components.children o) ->
            forall c,
              let o' := Components.after_component_call o c in
              NoDup (map fst (Components.children o')) /\
              Forall (fun entry => fst entry <> "" /\
                                   fst (snd entry) <> Components.TypeName "")
                (Components.children o') /\
              (Components._component_started o = true \/ c = Components.Start ->
               Components._component_started o' = true)) as Hstep.
  { intros o Hnd Hall [alias type config|]; simpl.
    - pose proof (add_component_cases o alias type config) as Hc.
      destruct (Components.add_component o alias type config) as [e|o'].
      + split; [done|]. split; [done|]. by intros [?|?].
      + destruct Hc as (Hs & Hs' & Ha & Hin & ->). split; [|split].
        * rewrite map_app. simpl. apply NoDup_app. split; [done|].
          split; [|apply NoDup_singleton].
          intros x Hx Hx'. apply list_elem_of_singleton in Hx' as ->. done.
        * apply Forall_app. split; [done|]. constructor; [|done]. simpl.
          split; [done|]. by apply type_or_alias_not_empty.
        * intros [?|?]; congruence.
    - split; [done|]. split; [done|]. done. }
  assert (forall calls (o : Components.ComponentObject Config),
            NoDup (map fst (Components.children o)) ->
            Forall (fun entry => fst entry <> "" /\
                                 fst (snd entry) <> Components.TypeName "")
              (Components.children o) ->
            let o' := fold_left Components.after_component_call calls o in
            NoDup (map fst (Components.children o')) /\
            Forall (fun entry => fst entry <> "" /\
                                 fst (snd entry) <> Components.TypeName "")
              (Components.children o') /\
            (Components._component_started o = true \/ Components.Start ∈ calls ->
             Components._component_started o' = true)) as Hall.
  { clear calls. induction calls as [|c calls IH]; intros o Hnd Hf; simpl.
    - split; [done|]. split; [done|]. intros [?|H]; [done|by apply elem_of_nil in H].
    - destruct (Hstep o Hnd Hf c) as (Hnd' & Hf' & Hs').
      destruct (IH _ Hnd' Hf') as (Hnd'' & Hf'' & Hs'').
      split; [done|]. split; [done|]. intros [Hs|Hin].
      + apply Hs''. left. apply Hs'. by left.
      + apply elem_of_cons in Hin as [<-|Hin].
        * apply Hs''. left. apply Hs'. by right.
        * apply Hs''. by right. }
  destruct (Hall calls Components.Component_init) as (H1 & H2 & H3);
    [apply NoDup_nil_2|constructor|].
  split; [done|]. split; [done|].
  intros Hin alias type config. unfold Components.add_component.
  rewrite H3; [done|by right].
Qed.

Lemma add_component_keeps_aliases_distinct_witness :
  let calls :=
    [Components.AddComponent "a" None tt;
     Components.AddComponent "a" (Some (Components.TypeName "b")) tt;
     Components.Start] in
  let self :=
    fold_left Components.after_component_call calls Components.Component_init in
  Components.Start ∈ calls /\
  Components.add_component self "b" None tt = inl RuntimeError.
Proof.
  cbv zeta.
  assert (Components.Start
          ∈ [Components.AddComponent "a" None tt;
             Components.AddComponent "a" (Some (Components.TypeName "b")) tt;
             @Components.Start unit]) as H.
  { apply elem_of_cons. right. apply elem_of_cons. right. apply elem_of_cons. by left. }
  split; [exact H|].
  exact (proj2 (proj2 (add_component_keeps_aliases_distinct _)) H "b" None tt).
Defined.

(** ** The aliases of child components *)

Lemma after_slash_split alias rest :
  Component.after_slash alias = Some rest ->
  alias = Components.before_slash alias ++ "/" ++ rest /\
  Component.after_slash (Components.before_slash alias) = None.
Proof.
  revert rest. induction alias as [|a alias IH]; intros rest; simpl; [done|].
  destruct (Ascii.eqb a "/") eqn:Ea.
  - intros [= ->]. apply Ascii.eqb_eq in Ea as ->. done.
  - intros H. destruct (IH rest H) as [H1 H2]. simpl. rewrite Ea.
    split; [|done]. change (String a alias
      = String a (Components.before_slash alias ++ "/" ++ rest)). by rewrite <- H1.
Qed.

Lemma before_slash_no_slash alias :
  Component.after_slash alias = None -> Components.before_slash alias = alias.
Proof.
  induction alias as [|a alias IH]; simpl; [done|].
  destruct (Ascii.eqb a "/"); [done|]. intros H. by rewrite IH.
Qed.

(** X20.  An alias [type/name] is split into the type of the child (by
    [_init_component]) and its default resource name (by
    [_start_component]), and the two parts joined by a slash give the
    alias back; an alias without slash is the type and the default
    resource name is [default].  The type kept never holds a slash. *)
Theorem alias_splits_into_type_and_name alias :
  (forall rest,
     Component.after_slash alias = Some rest ->
     Components.child_type None alias
     = Components.TypeName (Components.before_slash alias) /\
     Component.child_default_resource_name alias = rest /\
     alias = Components.before_slash alias ++ "/" ++ rest /\
     Component.after_slash (Components.before_slash alias) = None) /\
  (Component.after_slash alias = None ->
   Components.child_type None alias = Components.TypeName alias /\
   Component.child_default_resource_name alias = "default") /\
  Components.child_type (Some (Components.type_or_alias None alias)) alias
  = Components.child_type None alias /\
  (forall t, Components.child_type None alias = Components.TypeName t ->
             Component.after_slash t = None).
Proof.
  unfold Components.child_type, Component.child_default_resource_name. simpl.
  split; [|split; [|split]].
  - intros rest H. rewrite H. destruct (after_slash_split alias rest H) as [H1 H2].
    rewrite bool_decide_eq_true_2 by eauto. done.
  - intros H. rewrite H. rewrite bool_decide_eq_false_2; [done|].
    intros [? ?]. congruence.
  - done.
  - intros t. destruct (Component.after_slash alias) as [rest|] eqn:E.
    + rewrite bool_decide_eq_true_2 by eauto. intros [= <-].
      by destruct (after_slash_split alias rest E).
    + rewrite bool_decide_eq_false_2 by (intros [? ?]; congruence).
      by intros [= <-].
Qed.

Lemma alias_splits_into_type_and_name_witness :
  Components.child_type None "b/queue" = Components.TypeName "b" /\
  Component.child_default_resource_name "b/queue" = "queue".
Proof.
  destruct (proj1 (alias_splits_into_type_and_name "b/queue") "queue" eq_refl)
    as (H1 & H2 & _).
  split; [exact H1|exact H2].
Defined.

Lemma append_inj_r (p a b : string) : p ++ a = p ++ b -> a = b.
Proof. induction p as [|c p IH]; simpl; [done|]. intros [= H]. by apply IH. Qed.

(** X21.  The path of a child tells the siblings apart, but not the
    levels: under a non-empty path, the child [alias] gets the path that
    the alias [path.alias] gets at the root. *)
Theorem final_path_collisions path :
  (forall alias1 alias2,
     Component.final_path path alias1 = Component.final_path path alias2 ->
     alias1 = alias2) /\
  (forall alias, path <> "" ->
     Component.final_path "" (path ++ "." ++ alias)
     = Component.final_path path alias).
Proof.
  split.
  - intros a1 a2. unfold Component.final_path. destruct path as [|c path]; [done|].
    intros H. apply append_inj_r in H. by apply (append_inj_r ".") in H.
  - intros alias Hp. unfold Component.final_path. by destruct path.
Qed.

Lemma final_path_collisions_witness :
  Component.final_path "" "a.b" = Component.final_path "a" "b".
Proof. apply (proj2 (final_path_collisions "a") "b"). discriminate. Defined.

(** ** [ComponentContext.add_teardown_callback] *)

Lemma add_teardown_callback_at_base W base objs cb pe (w : W) self b :
  (forall c o p, objs !! c = Some o -> Component._parent o = Some p -> p < c) ->
  Components.nearest_plain_context objs self b ->
  forall fuel, self < fuel ->
    Components.add_teardown_callback_at W base fuel objs self cb pe w
    = base b cb pe w.
Proof.
  intros Hold Hb. induction Hb as [c Hc|c o p b Hc Hp Hb IH]; intros fuel Hf.
  - destruct fuel; simpl; by rewrite Hc.
  - destruct fuel as [|fuel]; [lia|]. simpl. rewrite Hc, Hp.
    pose proof (Hold c o p Hc Hp).
    destruct fuel as [|fuel]; [lia|]. apply IH. lia.
Qed.

(** X22.  A teardown callback added to a [ComponentContext] goes to the
    nearest context above it that is not a [ComponentContext], with one
    call of the method of the base class; a [ComponentContext] without
    parent fails the assertion. *)
Theorem component_teardown_callbacks_go_to_plain_context
    W base objs self cb pe (w : W) :
  (forall c o p, objs !! c = Some o -> Component._parent o = Some p -> p < c) ->
  (forall b,
     Components.nearest_plain_context objs self b ->
     Components.add_teardown_callback W base objs self cb pe w = base b cb pe w) /\
  (forall o,
     objs !! self = Some o -> Component._parent o = None ->
     Components.add_teardown_callback W base objs self cb pe w
     = (Some AssertionError, w)).
Proof.
  intros Hold. split.
  - intros b Hb. apply add_teardown_callback_at_base; [done|done|lia].
  - intros o Ho Hp. unfold Components.add_teardown_callback. simpl.
    by rewrite Ho, Hp.
Qed.

Lemma starting_contexts_parents_older c o p :
  starting_contexts !! c = Some o -> Component._parent o = Some p -> p < c.
Proof.
  intros Hc Hp.
  destruct (decide (c = 1)) as [->|H1];
    [vm_compute in Hc; injection Hc as <-; vm_compute in Hp; injection Hp as <-; lia|].
  destruct (decide (c = 2)) as [->|H2];
    [vm_compute in Hc; injection Hc as <-; vm_compute in Hp; injection Hp as <-; lia|].
  unfold starting_contexts in Hc.
  rewrite lookup_insert_ne in Hc by done.
  rewrite lookup_singleton_ne in Hc by done. discriminate Hc.
Qed.

Lemma component_teardown_callbacks_go_to_plain_context_witness :
  Components.add_teardown_callback _ Components.recording_add_teardown_callback
    starting_contexts 2 7 true []
  = (None, [(0, 7, true)]).
Proof.
  refine (proj1 (component_teardown_callbacks_go_to_plain_context _
                   Components.recording_add_teardown_callback
                   starting_contexts 2 7 true [] _) 0 _).
  - exact starting_contexts_parents_older.
  - apply (Components.npc_up _ 2 cache_context 1); [evaluate|reflexivity|].
    apply (Components.npc_up _ 1 queue_context 0); [evaluate|reflexivity|].
    apply Components.npc_here. evaluate.
Defined.

(** ** A schedule of the start pass *)





(** ** [ComponentContext.add_resource_factory]: how far a factory goes *)

Lemma add_resource_factory_at_chain W base objs f name types description self l :
  (forall c o p, objs !! c = Some o -> Component._parent o = Some p -> p < c) ->
  propagation_chain objs self l ->
  forall fuel (w : W), self < fuel ->
    Component.add_resource_factory_at W base fuel objs self f name types description w
    = register_on_each base (factory_name_at objs name) f types description l w.
Proof.
  intros Hold Hl.
  induction Hl as [c Hc|c o Hc Hstop|c o p l Hc Hs Hp Hl IH]; intros fuel w Hf.
  - destruct fuel; simpl; unfold factory_name_at; rewrite Hc;
      by destruct (base c f name types description w) as [[e|] w'].
  - destruct Hstop as [Hs|Hp].
    + destruct fuel; simpl; unfold factory_name_at; rewrite Hc, Hs;
        destruct (base c f (Some "default") types description w) as [[e|] w'];
        try done; by destruct (Component._parent o).
    + destruct fuel; simpl; unfold factory_name_at; rewrite Hc, Hp;
        destruct (Component.status o);
        by destruct (base c f _ types description w) as [[e|] w'].
  - destruct fuel as [|fuel]; [lia|]. simpl. unfold factory_name_at at 1.
    rewrite Hc, Hs, Hp.
    destruct (base c f name types description w) as [[e|] w']; [done|].
    pose proof (Hold c o p Hc Hp).
    destruct fuel as [|fuel]; [lia|]. apply IH. lia.
Qed.

(** X24.  [ComponentContext.add_resource_factory] registers the factory
    on the context and on every context above it, as long as they are
    [ComponentContext]s in the status [starting], and on the first
    context above those; each time under the name given ([default] on a
    context that is still preparing), never under a default resource
    name.  It stops at the first registration that raises and keeps the
    earlier ones. *)
Theorem factory_propagates_along_starting_contexts
    W base objs self f name types description l (w : W) :
  (forall c o p, objs !! c = Some o -> Component._parent o = Some p -> p < c) ->
  propagation_chain objs self l ->
  Component.add_resource_factory W base objs self f name types description w
  = register_on_each base (factory_name_at objs name) f types description l w.
Proof.
  intros Hold Hl. unfold Component.add_resource_factory.
  apply add_resource_factory_at_chain; [done|done|lia].
Qed.

Lemma factory_propagates_along_starting_contexts_witness :
  Component.add_resource_factory _ Component.recording_add_resource_factory
    starting_contexts 2 (make_object "str") (Some "x") (Some ["str"]) None []
  = register_on_each Component.recording_add_resource_factory
      (factory_name_at starting_contexts (Some "x")) (make_object "str")
      (Some ["str"]) None [2; 1; 0] [].
Proof.
  apply (factory_propagates_along_starting_contexts _
           Component.recording_add_resource_factory starting_contexts 2).
  - exact starting_contexts_parents_older.
  - apply (pc_up _ 2 cache_context 1); [evaluate|reflexivity|reflexivity|].
    apply (pc_up _ 1 queue_context 0); [evaluate|reflexivity|reflexivity|].
    apply pc_plain. evaluate.
Defined.
